(** * CloudWalk AI assistant: conversation understanding and retrieval

    A shallow embedding of [src/language_manager.py], [src/knowledge_base.py],
    the non-UI part of [src/chatbot_engine.py] and the language list of
    [src/config.py], followed by the properties of these components.

    Conventions of the embedding.
    - A Python [str] is the list of its Unicode code points ([pystr]).
    - The Unicode tables behind [str.lower] and the regex class [\w] are an
      interface ([Unicode]); the general theorems hold for every instance.
      The instance [latin1] agrees with CPython on the code points below
      256 and is used to evaluate concrete inputs written in that range.
    - Python computes the language scores in binary64; the embedding uses
      exact rationals ([Q]).
    - The context object is mutated in place by the source: the embedding
      passes it through explicitly and returns the mutated value. *)

From Stdlib Require Import String Ascii QArith Qminmax Lqa.
From stdpp Require Import base list sorting gmap.

Local Open Scope N_scope.

(** ** Python strings *)

Module Py.

Definition pystr := list N.

(** Decoding of a UTF-8 literal of this file into code points. *)
Fixpoint utf8_decode (bs : list N) : pystr :=
  match bs with
  | [] => []
  | b :: t =>
    if b <? 128 then b :: utf8_decode t
    else if b <? 224 then
      match t with
      | b1 :: t1 => ((b - 192) * 64 + (b1 - 128)) :: utf8_decode t1
      | [] => []
      end
    else if b <? 240 then
      match t with
      | b1 :: b2 :: t2 =>
        ((b - 224) * 4096 + (b1 - 128) * 64 + (b2 - 128)) :: utf8_decode t2
      | _ => []
      end
    else
      match t with
      | b1 :: b2 :: b3 :: t3 =>
        ((b - 240) * 262144 + (b1 - 128) * 4096 + (b2 - 128) * 64 + (b3 - 128))
          :: utf8_decode t3
      | _ => []
      end
  end.

Definition str (s : string) : pystr :=
  utf8_decode (List.map N_of_ascii (list_ascii_of_string s)).

Definition str_eqb (a b : pystr) : bool := bool_decide (a = b).

(** [str.isspace] for one code point (the whitespace table of CPython). *)
Definition isspace (c : N) : bool :=
  ((9 <=? c) && (c <=? 13)) || ((28 <=? c) && (c <=? 32))
  || (c =? 133) || (c =? 160) || (c =? 5760)
  || ((8192 <=? c) && (c <=? 8202))
  || (c =? 8232) || (c =? 8233) || (c =? 8239) || (c =? 8287) || (c =? 12288).

(** [s.split()]: maximal runs of non-whitespace, in order. [cur] holds the
    run being read, reversed. *)
Fixpoint split_aux (s : pystr) (cur : pystr) : list pystr :=
  match s with
  | [] => match cur with [] => [] | _ => [rev cur] end
  | c :: t =>
    if isspace c
    then match cur with
         | [] => split_aux t []
         | _ => rev cur :: split_aux t []
         end
    else split_aux t (c :: cur)
  end.

Definition split (s : pystr) : list pystr := split_aux s [].

(** [s.strip()]. *)
Fixpoint lstrip (s : pystr) : pystr :=
  match s with
  | c :: t => if isspace c then lstrip t else s
  | [] => []
  end.

Definition strip (s : pystr) : pystr := rev (lstrip (rev (lstrip s))).

(** [sep.join(l)]. *)
Fixpoint join (sep : pystr) (l : list pystr) : pystr :=
  match l with
  | [] => []
  | [x] => x
  | x :: t => x ++ sep ++ join sep t
  end.

(** [l[-n:]] for a positive literal [n]: start at [max (len l - n) 0]. *)
Definition last_n {A} (n : nat) (l : list A) : list A :=
  drop (length l - n)%nat l.

(** [x or d] for an optional string: [None] and the empty string are falsy. *)
Definition or_else (x : option pystr) (d : pystr) : pystr :=
  match x with
  | Some (c :: t) => c :: t
  | _ => d
  end.

(** Truthiness of an optional string. *)
Definition truthy (x : option pystr) : bool :=
  match x with
  | Some (_ :: _) => true
  | _ => false
  end.

(** [needle in hay] for two strings. *)
Fixpoint startswith (s prefix : pystr) : bool :=
  match prefix, s with
  | [], _ => true
  | a :: prefix', b :: s' => (a =? b) && startswith s' prefix'
  | _ :: _, [] => false
  end.

Fixpoint contains (needle hay : pystr) : bool :=
  startswith hay needle
  || match hay with
     | [] => false
     | _ :: t => contains needle t
     end.

(** [s.split(sep)] for a separator of one code point: the fields between
    the separators, empty fields included. *)
Fixpoint split_on_aux (sep : N) (s cur : pystr) : list pystr :=
  match s with
  | [] => [rev cur]
  | c :: t =>
    if c =? sep then rev cur :: split_on_aux sep t []
    else split_on_aux sep t (c :: cur)
  end.

Definition split_on (sep : N) (s : pystr) : list pystr :=
  split_on_aux sep s [].

(** [s.replace(old, new)] for strings of one code point. *)
Definition replace (old new : N) (s : pystr) : pystr :=
  List.map (fun c => if c =? old then new else c) s.

(** [d.get(k)] on a dictionary kept as its list of items. *)
Fixpoint dict_get {V} (k : pystr) (d : list (pystr * V)) : option V :=
  match d with
  | [] => None
  | (k', v) :: t => if str_eqb k k' then Some v else dict_get k t
  end.

(** The Unicode tables the source reaches through [str.lower] and through
    the class [\w] of [re] ([isalnum c] or [c] is the underscore). *)
Class Unicode := {
  isalnum : N -> bool;
  lower : pystr -> pystr
}.

Definition latin1_isalnum (c : N) : bool :=
  ((48 <=? c) && (c <=? 57)) || ((65 <=? c) && (c <=? 90))
  || ((97 <=? c) && (c <=? 122))
  || (c =? 170) || (c =? 178) || (c =? 179) || (c =? 181) || (c =? 185)
  || (c =? 186) || ((188 <=? c) && (c <=? 190))
  || ((192 <=? c) && (c <=? 214)) || ((216 <=? c) && (c <=? 246))
  || ((248 <=? c) && (c <=? 255)).

Definition latin1_lower_char (c : N) : N :=
  if ((65 <=? c) && (c <=? 90))
     || ((192 <=? c) && (c <=? 214)) || ((216 <=? c) && (c <=? 222))
  then c + 32 else c.

Definition latin1 : Unicode :=
  {| isalnum := latin1_isalnum; lower := List.map latin1_lower_char |}.

End Py.

Import Py.

(** ** The fragment of [re] used by the pattern tables *)

Module Re.

(** Patterns: literals, character sets [[..]], [r?], concatenation,
    alternation and the word boundary [\b]. Groups only delimit. *)
Inductive regex :=
| Eps
| Chr (c : N)
| Cls (cs : list N)
| Opt (r : regex)
| Cat (r1 r2 : regex)
| Alt (r1 r2 : regex)
| Bnd.

(** A position in the subject: the code point before it and what follows. *)
Record cursor := Cursor { before : option N; rest : pystr }.

Definition start (s : pystr) : cursor := Cursor None s.

Definition advance (c : cursor) : option cursor :=
  match rest c with
  | x :: t => Some (Cursor (Some x) t)
  | [] => None
  end.

Section Matching.
Context {U : Unicode}.

Definition is_word (c : N) : bool := isalnum c || (c =? 95).

Definition word_at (o : option N) : bool :=
  match o with Some c => is_word c | None => false end.

Definition at_boundary (c : cursor) : bool :=
  xorb (word_at (before c)) (word_at (head (rest c))).

(** Backtracking matcher: alternatives are tried left to right, [r?] is
    greedy, and [k] is the rest of the pattern. The result is the position
    where the first successful attempt ends. *)
Fixpoint rmatch (r : regex) (k : cursor -> option cursor) (c : cursor)
  : option cursor :=
  match r with
  | Eps => k c
  | Chr a =>
    match rest c with
    | x :: t => if x =? a then k (Cursor (Some x) t) else None
    | [] => None
    end
  | Cls cs =>
    match rest c with
    | x :: t => if existsb (N.eqb x) cs then k (Cursor (Some x) t) else None
    | [] => None
    end
  | Opt r1 =>
    match rmatch r1 k c with
    | Some e => Some e
    | None => k c
    end
  | Cat r1 r2 => rmatch r1 (rmatch r2 k) c
  | Alt r1 r2 =>
    match rmatch r1 k c with
    | Some e => Some e
    | None => rmatch r2 k c
    end
  | Bnd => if at_boundary c then k c else None
  end.

Definition match_here (r : regex) (c : cursor) : option cursor :=
  rmatch r Some c.

(** [re.search(r, s)] as a truth value: some start position matches. The
    scan visits every position, the end of the subject included. *)
Fixpoint search_from (r : regex) (bef : option N) (s : pystr) : bool :=
  match match_here r (Cursor bef s) with
  | Some _ => true
  | None =>
    match s with
    | x :: t => search_from r (Some x) t
    | [] => false
    end
  end.

Definition search (r : regex) (s : pystr) : bool := search_from r None s.

(** [len(re.findall(r, s))]: leftmost matches, the scan resuming where the
    previous match ended. [fuel] bounds the number of scan steps; every
    step moves forward, so [S (length s)] steps reach the end. A match that
    consumes nothing is counted and the scan moves one code point on. *)
Fixpoint findall_from (fuel : nat) (r : regex) (c : cursor) : nat :=
  match fuel with
  | O => O
  | S f =>
    match match_here r c with
    | Some e =>
      if (length (rest e) <? length (rest c))%nat
      then S (findall_from f r e)
      else match advance c with
           | Some c' => S (findall_from f r c')
           | None => 1%nat
           end
    | None =>
      match advance c with
      | Some c' => findall_from f r c'
      | None => O
      end
    end
  end.

Definition findall_count (r : regex) (s : pystr) : nat :=
  findall_from (S (length s)) r (start s).

End Matching.

(** Pattern builders. *)
Definition lit (s : string) : regex :=
  foldr (fun c r => Cat (Chr c) r) Eps (str s).

Definition set (s : string) : regex := Cls (str s).

Definition alts (rs : list regex) : regex :=
  match rs with
  | [] => Eps
  | r :: t => fold_left Alt t r
  end.

(** [\b(r1|...|rn)\b] *)
Definition words (rs : list regex) : regex :=
  Cat Bnd (Cat (alts rs) Bnd).

End Re.

Import Re.

(** ** [src/language_manager.py] *)

Module LanguageManager.

Record LanguageConfig := {
  patterns : list regex;
  stop_words : list pystr;
  greeting_responses : list pystr
}.

(** [LANGUAGE_PATTERNS['pt-BR']] *)
Definition pt_BR : LanguageConfig :=
     {| patterns :=
          [ words [lit "olá"; lit "oi"; lit "bom dia"; lit "boa tarde";
                   lit "boa noite"; Cat (lit "obrigad") (set "oa");
                   lit "por favor"; lit "tchau"; lit "até";
                   Cat (lit "você") (Opt (lit "s")); lit "está"; lit "estou";
                   lit "são"; lit "sou"; lit "meu"; lit "minha"; lit "nosso";
                   lit "nossa"];
            words [lit "maquininha"; lit "cartão"; lit "pagamento";
                   lit "taxa"; lit "pix"; lit "boleto"; lit "conta";
                   lit "dinheiro"; lit "receber"; lit "vender"; lit "comprar"];
            words [lit "fazer"; lit "querer"; lit "poder"; lit "precisar";
                   lit "ter"; lit "ser"; lit "estar"];
            words [lit "não"; lit "sim"; lit "talvez"; lit "claro";
                   lit "certo"; lit "errado"] ];
        stop_words :=
          [str "de"; str "da"; str "do"; str "a"; str "o"; str "um";
           str "uma"; str "para"; str "com"; str "em"; str "no"; str "na"];
        greeting_responses :=
          [str "Olá! Bem-vindo à CloudWalk! 🚀";
           str "Oi! Como posso ajudar você hoje?";
           str "Seja bem-vindo! Sou o assistente da CloudWalk."] |}.

(** [LANGUAGE_PATTERNS['en']] *)
Definition en : LanguageConfig :=
     {| patterns :=
          [ words [lit "hello"; lit "hi"; lit "good morning";
                   lit "good afternoon"; lit "good evening"; lit "thanks";
                   lit "thank you"; lit "please"; lit "bye"; lit "goodbye";
                   lit "you"; lit "your"; lit "are"; lit "am"; lit "is";
                   lit "my"; lit "our"];
            words [lit "card"; lit "payment"; lit "fee"; lit "rate";
                   lit "account"; lit "money"; lit "receive"; lit "sell";
                   lit "buy"; lit "terminal"];
            words [lit "do"; lit "want"; lit "can"; lit "need"; lit "have";
                   lit "be"];
            words [lit "no"; lit "yes"; lit "maybe"; lit "sure"; lit "right";
                   lit "wrong"] ];
        stop_words :=
          [str "the"; str "a"; str "an"; str "to"; str "for"; str "with";
           str "in"; str "on"; str "at"];
        greeting_responses :=
          [str "Hello! Welcome to CloudWalk! 🚀";
           str "Hi there! How can I help you today?";
           str "Welcome! I'm CloudWalk's AI assistant."] |}.

(** [LANGUAGE_PATTERNS], in declaration order. *)
Definition LANGUAGE_PATTERNS : list (pystr * LanguageConfig) :=
  [ (str "pt-BR", pt_BR); (str "en", en) ].

Definition profile_keys : list pystr := List.map fst LANGUAGE_PATTERNS.

(** [language in LANGUAGE_PATTERNS] *)
Definition is_profile (language : pystr) : bool :=
  existsb (str_eqb language) profile_keys.

Record LanguageDetectionResult := {
  detected_language : pystr;
  confidence : Q;
  alternative_language : option pystr;
  alternative_confidence : option Q
}.

Record LanguageManager := {
  default_language : pystr;
  current_language : pystr;
  language_history : list pystr
}.

Definition __init__ (default_language : pystr) : LanguageManager :=
  {| default_language := default_language;
     current_language := default_language;
     language_history := [] |}.

(** The module singleton [language_manager = LanguageManager()]. *)
Definition language_manager : LanguageManager := __init__ (str "en").

Definition Qltb (x y : Q) : bool :=
  match (x ?= y)%Q with Lt => true | _ => false end.

(** [sorted(items, key=lambda x: x[1], reverse=True)]: stable, so entries
    with equal scores keep their order. *)
Fixpoint insert_desc (x : pystr * Q) (l : list (pystr * Q))
  : list (pystr * Q) :=
  match l with
  | [] => [x]
  | y :: t => if Qltb (snd x) (snd y) then y :: insert_desc x t else x :: l
  end.

Definition sorted_desc (l : list (pystr * Q)) : list (pystr * Q) :=
  foldr insert_desc [] l.

Section Detection.
Context {U : Unicode}.

(** The loop over [config['patterns']]: the pair [(score, matches)]. *)
Definition pattern_loop (cfg : LanguageConfig) (text_lower : pystr)
  : nat * nat :=
  fold_left
    (fun '(score, matches) pattern =>
       let pattern_matches := findall_count pattern text_lower in
       (score + pattern_matches * 2, matches + pattern_matches)%nat)
    (patterns cfg) (O, O).

(** The final value of the variable [matches]. *)
Definition pattern_matches (cfg : LanguageConfig) (text_lower : pystr) : nat :=
  snd (pattern_loop cfg text_lower).

Definition stop_word_matches (cfg : LanguageConfig) (words : list pystr)
  : nat :=
  length (filter (fun word => existsb (str_eqb word) (stop_words cfg)) words).

(** The value stored in [scores[lang]] for one profile. *)
Definition lang_score (cfg : LanguageConfig) (text_lower : pystr) : Q :=
  let score := fst (pattern_loop cfg text_lower) in
  let words := split text_lower in
  let score := (score + stop_word_matches cfg words)%nat in
  if (0 <? length words)%nat
  then Z.of_nat score # Pos.of_nat (length words)
  else 0%Q.

Definition scores (text_lower : pystr) : list (pystr * Q) :=
  List.map (fun e => (fst e, lang_score (snd e) text_lower)) LANGUAGE_PATTERNS.

Definition sorted_scores (text : pystr) : list (pystr * Q) :=
  sorted_desc (scores (lower text)).

Definition detect_language (self : LanguageManager) (text : pystr)
  : LanguageDetectionResult :=
  let no_detection :=
    {| detected_language := default_language self; confidence := 0%Q;
       alternative_language := None; alternative_confidence := None |} in
  match sorted_scores text with
  | [] => no_detection
  | (top_lang, top_score) :: others =>
    if Qeq_bool top_score 0 then no_detection
    else
      let confidence := Qmin (top_score / (1 # 2)) 1 in
      let result :=
        {| detected_language := top_lang; confidence := confidence;
           alternative_language := None; alternative_confidence := None |} in
      match others with
      | (alt_lang, alt_score) :: _ =>
        if Qltb 0 alt_score && Qltb (7 # 10) (alt_score / top_score)
        then {| detected_language := top_lang; confidence := confidence;
                alternative_language := Some alt_lang;
                alternative_confidence :=
                  Some (Qmin (alt_score / (1 # 2)) 1) |}
        else result
      | [] => result
      end
  end.

End Detection.

Definition set_language (self : LanguageManager) (language : pystr)
  : LanguageManager :=
  if is_profile language
  then {| default_language := default_language self;
          current_language := language;
          language_history := language_history self ++ [language] |}
  else self.

(** A sequence of [set_language] calls on one manager. *)
Definition set_languages (self : LanguageManager) (calls : list pystr)
  : LanguageManager :=
  fold_left set_language calls self.


(** *** Localized content *)

(** A value of the nested dictionary [LOCALIZED_CONTENT]: a string or a
    dictionary of such values. *)
#[local] Set Warnings "-register-all".
Inductive Content :=
| Text (s : pystr)
| Table (entries : list (pystr * Content)).

(** [LOCALIZED_CONTENT], in declaration order. *)
Definition LOCALIZED_CONTENT : list (pystr * Content) :=
  [
    (str "pt-BR",
     Table
     [
       (str "company_intro",
        Text (str "A CloudWalk está revolucionando o mercado de pagamentos no Brasil com a InfinitePay!"));
       (str "products",
        Table
        [
          (str "infinitepay",
           Text (str "InfinitePay - A maquininha que está transformando negócios brasileiros"));
          (str "jim",
           Text (str "JIM - Nossa solução de pagamentos instantâneos para os EUA"));
          (str "stratus",
           Text (str "STRATUS - Blockchain de alta performance para soluções financeiras")) ]);
       (str "common_questions",
        Table
        [
          (str "fees",
           Text (str "Nossas taxas começam em 0% no Pix, 0.75% no débito e 2.69% no crédito à vista!"));
          (str "support",
           Text (str "Temos suporte RA1000 - o melhor do Brasil!"));
          (str "how_it_works",
           Text (str "É simples: você vende, recebe na hora ou em 1 dia útil, com as menores taxas!")) ]);
       (str "cta",
        Text (str "Quer saber mais? Posso explicar sobre nossas maquininhas, taxas ou qualquer dúvida!")) ]);
    (str "en",
     Table
     [
       (str "company_intro",
        Text (str "CloudWalk is revolutionizing payments globally with AI-powered solutions!"));
       (str "products",
        Table
        [
          (str "infinitepay",
           Text (str "InfinitePay - Brazil's game-changing payment platform"));
          (str "jim",
           Text (str "JIM - Instant payments meet AI magic in the US"));
          (str "stratus",
           Text (str "STRATUS - High-performance blockchain for financial solutions")) ]);
       (str "common_questions",
        Table
        [
          (str "fees",
           Text (str "Our fees start at 0% for Pix, 0.75% for debit, and 2.69% for credit!"));
          (str "support",
           Text (str "We have RA1000-rated support - Brazil's best!"));
          (str "how_it_works",
           Text (str "It's simple: sell, get paid instantly or next day, lowest fees!")) ]);
       (str "cta",
        Text (str "Want to know more? Ask me about our products, fees, or anything else!")) ]) ].

(** [LOCALIZED_CONTENT['en']] *)
Definition localized_en : Content :=
  default (Table []) (dict_get (str "en") LOCALIZED_CONTENT).

Definition missing (key : pystr) : Content :=
  Text (str "[Missing: " ++ key ++ str "]").

(** The loop [for k in keys] of [get_localized_content]: a dictionary is
    entered with [get(k, "[Missing: key]")], anything else ends the loop. *)
Fixpoint navigate (key : pystr) (keys : list pystr) (content : Content)
  : Content :=
  match keys with
  | [] => content
  | k :: keys' =>
    match content with
    | Table d => navigate key keys' (default (missing key) (dict_get k d))
    | Text _ => content
    end
  end.

(** [reaches keys root c]: following the keys [keys] one dictionary after
    the other from [root] ends at the value [c]. *)
Inductive reaches : list pystr -> Content -> Content -> Prop :=
| reaches_here (c : Content) : reaches [] c c
| reaches_entry (k : pystr) (keys : list pystr)
    (d : list (pystr * Content)) (v c : Content) :
    dict_get k d = Some v -> reaches keys v c ->
    reaches (k :: keys) (Table d) c.

Definition get_localized_content (self : LanguageManager) (key : pystr)
  (language : option pystr) : Content :=
  let language := default (current_language self) language in
  let content := default localized_en (dict_get language LOCALIZED_CONTENT) in
  navigate key (split_on 46 key) content.

(** *** Greetings, product names, currency *)

(** [get_greeting]: [draw] is the index [random.choice] picks, below the
    number of greetings. *)
Definition get_greeting (language : pystr) (draw : nat) : option pystr :=
  let greetings :=
    greeting_responses (default en (dict_get language LANGUAGE_PATTERNS)) in
  greetings !! draw.

Definition translations : list (pystr * list (pystr * pystr)) :=
  [
    (str "infinitepay",
     [(str "pt-BR", str "InfinitePay"); (str "es", str "InfinitePay"); (str "en", str "InfinitePay")]);
    (str "jim",
     [(str "pt-BR", str "JIM (para os EUA)"); (str "es", str "JIM (para EEUU)"); (str "en", str "JIM")]);
    (str "stratus",
     [(str "pt-BR", str "STRATUS (Blockchain)"); (str "es", str "STRATUS (Blockchain)"); (str "en", str "STRATUS")]) ].

Definition translate_product_name {U : Unicode} (self : LanguageManager)
  (product : pystr) (to_language : option pystr) : pystr :=
  let to_language := default (current_language self) to_language in
  let product_lower := lower product in
  match dict_get product_lower translations with
  | Some names => default product (dict_get to_language names)
  | None => product
  end.

(** The number formatting behind [f"{x:,.2f}"], a builtin of Python. *)
Class Formatting := { format_2f : Q -> pystr }.

(** [.replace(',', 'X').replace('.', ',').replace('X', '.')] *)
Definition swap_separators (s : pystr) : pystr :=
  replace 88 46 (replace 46 44 (replace 44 88 s)).

Definition formatters {F : Formatting}
  : list (pystr * list (pystr * (Q -> pystr))) :=
  [ (str "pt-BR",
     [ (str "BRL", fun x => swap_separators (str "R$ " ++ format_2f x));
       (str "USD", fun x => swap_separators (str "US$ " ++ format_2f x)) ]);
    (str "es",
     [ (str "BRL", fun x => swap_separators (str "R$ " ++ format_2f x));
       (str "USD", fun x => swap_separators (str "US$ " ++ format_2f x)) ]);
    (str "en",
     [ (str "BRL", fun x => str "R$ " ++ format_2f x);
       (str "USD", fun x => str "$" ++ format_2f x) ]) ].

Definition format_currency {F : Formatting} (self : LanguageManager)
  (amount : Q) (currency : pystr) (language : option pystr) : pystr :=
  let language := default (current_language self) language in
  let table :=
    default (default [] (dict_get (str "en") formatters))
      (dict_get language formatters) in
  let formatter :=
    default (fun x => currency ++ str " " ++ format_2f x)
      (dict_get currency table) in
  formatter amount.


End LanguageManager.

Import LanguageManager.

(** ** [src/knowledge_base.py] *)

Module KnowledgeBase.

(** [datetime] values are opaque instants; [isoformat] is injective and is
    left implicit. *)
Definition datetime := N.

Record KnowledgeDocument := {
  id : pystr;
  title : pystr;
  content : pystr;
  category : pystr;
  subcategory : option pystr;
  tags : list pystr;
  language : pystr;
  product : option pystr;
  last_updated : datetime;
  metadata : list (pystr * pystr)
}.

(** The metadata dictionary built by [_add_documents]. *)
Record Metadata := {
  md_title : pystr;
  md_category : pystr;
  md_subcategory : pystr;
  md_tags : pystr;
  md_language : pystr;
  md_product : pystr;
  md_last_updated : datetime
}.

Record Entry := { entry_document : pystr; entry_metadata : Metadata }.

(** The state of the external collection: the stored entries by id. *)
Abbreviation Collection := (gmap pystr Entry).

(** Modelled from the spec: the insertion of the external similarity-search
    collaborator (the ChromaDB collection, which is not part of the
    repository), as the spec's store keyed by document id: it "skips
    documents whose id already exists". *)
Definition collection_add_one (coll : Collection) (e : pystr * Entry)
  : Collection :=
  match coll !! e.1 with
  | Some _ => coll
  | None => <[e.1 := e.2]> coll
  end.

(** Modelled from the spec: [collection.add(ids, documents, metadatas)],
    one insertion per id, in order. *)
Definition collection_add (ids contents : list pystr)
  (metadatas : list Metadata) (coll : Collection) : Collection :=
  fold_left collection_add_one
    (zip ids (zip_with Build_Entry contents metadatas)) coll.

Record SearchHit := {
  hit_id : pystr;
  hit_content : pystr;
  hit_metadata : Metadata;
  hit_distance : option Q
}.

(** External collaborators of the knowledge base: [hashlib.md5] composed
    with [encode] and [hexdigest], and the similarity query of the
    collection (query text, number of results, [where] clause). *)
Class Collaborators := {
  md5_hexdigest : pystr -> pystr;
  collection_query :
    Collection -> pystr -> nat -> option (list (pystr * pystr)) ->
    list SearchHit
}.

Record CloudWalkKnowledgeBase := { collection : Collection }.

(** The arguments of one call of [search]. *)
Record SearchArgs := {
  query : pystr;
  n_results : nat;
  filter_language : option pystr;
  filter_product : option pystr;
  filter_category : option pystr
}.

(** Keyword arguments accepted by [add_custom_knowledge] through
    [**kwargs]: the remaining fields of [KnowledgeDocument]. *)
Record Kwargs := {
  kw_subcategory : option pystr;
  kw_product : option pystr;
  kw_last_updated : option datetime;
  kw_metadata : option (list (pystr * pystr))
}.

Section Operations.
Context {C : Collaborators}.

Definition _generate_id (content : pystr) : pystr :=
  take 16 (md5_hexdigest content).

Definition document_metadata (doc : KnowledgeDocument) : Metadata :=
  {| md_title := title doc;
     md_category := category doc;
     md_subcategory := or_else (subcategory doc) [];
     md_tags := join (str ",") (tags doc);
     md_language := language doc;
     md_product := or_else (product doc) [];
     md_last_updated := last_updated doc |}.

Definition _add_documents (self : CloudWalkKnowledgeBase)
  (documents : list KnowledgeDocument) : CloudWalkKnowledgeBase :=
  match documents with
  | [] => self
  | _ =>
    let ids := List.map id documents in
    let contents := List.map content documents in
    let metadatas := List.map document_metadata documents in
    {| collection := collection_add ids contents metadatas (collection self) |}
  end.

(** The [where] dictionary: one key per truthy filter, in insertion order;
    [None] is passed when it is empty. *)
Definition where_clause (a : SearchArgs) : option (list (pystr * pystr)) :=
  let clause (key : pystr) (v : option pystr) :=
    if truthy v then [(key, or_else v [])] else [] in
  match clause (str "language") (filter_language a)
        ++ clause (str "product") (filter_product a)
        ++ clause (str "category") (filter_category a) with
  | [] => None
  | w => Some w
  end.

Definition search (self : CloudWalkKnowledgeBase) (a : SearchArgs)
  : list SearchHit :=
  collection_query (collection self) (query a) (n_results a) (where_clause a).

Definition add_custom_knowledge (self : CloudWalkKnowledgeBase)
  (title content category : pystr) (tags : list pystr) (language : pystr)
  (kwargs : Kwargs) (now : datetime) : pystr * CloudWalkKnowledgeBase :=
  let doc_id := _generate_id (title ++ str "_" ++ content) in
  let document :=
    {| id := doc_id; title := title; content := content;
       category := category; subcategory := kw_subcategory kwargs;
       tags := tags; language := language; product := kw_product kwargs;
       last_updated := default now (kw_last_updated kwargs);
       metadata := default [] (kw_metadata kwargs) |} in
  (doc_id, _add_documents self [document]).

End Operations.

Section Catalogue.
Context {U : Unicode} {C : Collaborators}.

(** The documents of [_initialize_core_knowledge]; [clock i] is the instant
    at which the [i]-th document is constructed. *)
Definition core_documents (clock : nat -> datetime) : list KnowledgeDocument :=
  [
    {| id := _generate_id (str "cloudwalk_mission");
       title := str "CloudWalk Mission";
       content :=
         str "Our mission is to create the best payment network on Earth. Then other planets. We are democratizing the financial industry, empowering entrepreneurs through technological, inclusive and life-changing solutions.";
       category := str "company";
       subcategory := Some (str "mission");
       tags := [str "mission"; str "vision"; str "company"; str "about"];
       language := str "en";
       product := None;
       last_updated := clock 0%nat;
       metadata := [] |};
    {| id := _generate_id (str "infinitepay_overview");
       title := str "InfinitePay Overview";
       content :=
         str "InfinitePay is a powerful financial platform democratizing access to world-class payment products and software, currently serving millions of clients in Brazil. Launched in 2019, it represented the most disruptive wave of innovation in the Brazilian payments industry.";
       category := str "products";
       subcategory := Some (str "infinitepay");
       tags := [str "infinitepay"; str "brazil"; str "payments"; str "maquininha"];
       language := str "en";
       product := Some (str "infinitepay");
       last_updated := clock 1%nat;
       metadata := [] |};
    {| id := _generate_id (str "infinitepay_fees");
       title := str "InfinitePay Fees";
       content :=
         str "InfinitePay offers the lowest fees in Brazil: 0.00% for Pix, 0.75% for Debit, 2.69% for Credit (1x), and 8.99% for Credit (12x). These are final rates including anticipation. No monthly fees or hidden costs.";
       category := str "products";
       subcategory := Some (str "fees");
       tags := [str "fees"; str "rates"; str "pricing"; str "costs"; str "infinitepay"];
       language := str "en";
       product := Some (str "infinitepay");
       last_updated := clock 2%nat;
       metadata := [] |};
    {| id := _generate_id (str "infinitepay_maquininha");
       title := str "InfinitePay Maquininha Smart";
       content :=
         str "The Maquininha Smart is available for just 12x R$ 16.58 or R$ 199. It includes: Pix with zero fees, receipt printing, long battery life, inventory management, free shipping, and no rental fees or loyalty requirements.";
       category := str "products";
       subcategory := Some (str "hardware");
       tags := [str "maquininha"; str "hardware"; str "terminal"; str "pos"; str "infinitepay"];
       language := str "en";
       product := Some (str "infinitepay");
       last_updated := clock 3%nat;
       metadata := [] |};
    {| id := _generate_id (str "infinitetap_overview");
       title := str "InfiniteTap - Phone as Card Reader";
       content :=
         str "InfiniteTap transforms your smartphone into a card reader in less than 5 minutes. Works on Android and iOS with NFC. Zero investment required, accepts payments up to 12x installments.";
       category := str "products";
       subcategory := Some (str "infinitetap");
       tags := [str "tap"; str "nfc"; str "mobile"; str "smartphone"; str "infinitepay"];
       language := str "en";
       product := Some (str "infinitepay");
       last_updated := clock 4%nat;
       metadata := [] |};
    {| id := _generate_id (str "jim_overview");
       title := str "JIM Overview";
       content :=
         str "JIM brings the power of instant payments for everyone in the US. Combining cutting edge technology with unparalleled design, JIM enables sellers to accept payments, receive money instantly, and access a next generation AI assistant.";
       category := str "products";
       subcategory := Some (str "jim");
       tags := [str "jim"; str "usa"; str "instant"; str "payments"];
       language := str "en";
       product := Some (str "jim");
       last_updated := clock 5%nat;
       metadata := [] |};
    {| id := _generate_id (str "jim_features");
       title := str "JIM Features and Pricing";
       content :=
         str "JIM offers: 1.99% per transaction (lowest in market), instant payouts in seconds, no hardware needed (phone only), accepts all major cards and digital wallets, AI-powered business insights. No hidden fees, no monthly charges.";
       category := str "products";
       subcategory := Some (str "features");
       tags := [str "jim"; str "fees"; str "instant"; str "mobile"; str "ai"];
       language := str "en";
       product := Some (str "jim");
       last_updated := clock 6%nat;
       metadata := [] |};
    {| id := _generate_id (str "stratus_overview");
       title := str "STRATUS Blockchain";
       content :=
         str "STRATUS is a high performance, secure, scalable, and open-source blockchain designed for global payment networks. It processes up to 1,800 transactions per second (TPS) with potential for infinite growth through sharding and multi-raft consensus models.";
       category := str "products";
       subcategory := Some (str "stratus");
       tags := [str "stratus"; str "blockchain"; str "technology"; str "infrastructure"];
       language := str "en";
       product := Some (str "stratus");
       last_updated := clock 7%nat;
       metadata := [] |};
    {| id := _generate_id (str "cloudwalk_ai");
       title := str "CloudWalk AI Capabilities";
       content :=
         str "CloudWalk leverages AI across multiple fronts: fraud detection with 3-layer system (transactional, behavioral, relational), credit assessment using actual behavior data, customer support automation handling substantial chats without human intervention, and merchant vector space for business analysis.";
       category := str "technology";
       subcategory := Some (str "ai");
       tags := [str "ai"; str "ml"; str "fraud"; str "credit"; str "automation"];
       language := str "en";
       product := None;
       last_updated := clock 8%nat;
       metadata := [] |};
    {| id := _generate_id (str "cloudwalk_support");
       title := str "CloudWalk Support Excellence";
       content :=
         str "CloudWalk provides RA1000-rated support, the highest quality rating in Brazil. Our support team is always ready to help with questions and resolve problems quickly and efficiently.";
       category := str "support";
       subcategory := Some (str "customer_service");
       tags := [str "support"; str "ra1000"; str "help"; str "service"];
       language := str "en";
       product := None;
       last_updated := clock 9%nat;
       metadata := [] |};
    {| id := _generate_id (str "infinitepay_overview_pt");
       title := str "Visão Geral InfinitePay";
       content :=
         str "InfinitePay é uma poderosa plataforma financeira democratizando o acesso a produtos de pagamento de classe mundial, atualmente atendendo milhões de clientes no Brasil. Lançada em 2019, representou a onda mais disruptiva de inovação no setor de pagamentos brasileiro.";
       category := str "products";
       subcategory := Some (str "infinitepay");
       tags := [str "infinitepay"; str "brasil"; str "pagamentos"; str "maquininha"];
       language := str "pt-BR";
       product := Some (str "infinitepay");
       last_updated := clock 10%nat;
       metadata := [] |};
    {| id := _generate_id (str "infinitepay_taxas_pt");
       title := str "Taxas InfinitePay";
       content :=
         str "InfinitePay oferece as menores taxas do Brasil: 0,00% no Pix, 0,75% no Débito, 2,69% no Crédito à vista, e 8,99% no Crédito 12x. São taxas finais já com antecipação. Sem mensalidade ou custos escondidos.";
       category := str "products";
       subcategory := Some (str "fees");
       tags := [str "taxas"; str "preços"; str "custos"; str "infinitepay"];
       language := str "pt-BR";
       product := Some (str "infinitepay");
       last_updated := clock 11%nat;
       metadata := [] |} ].

(** [_initialize_core_knowledge]: the core documents whose id is not among
    the ids of the collection are added, and nothing is added when there is
    none. The list of new documents is returned beside the store. *)
Definition new_core_documents (self : CloudWalkKnowledgeBase)
  (clock : nat -> datetime) : list KnowledgeDocument :=
  let existing_ids := dom (collection self) in
  filter (fun doc => id doc ∉ existing_ids) (core_documents clock).

Definition _initialize_core_knowledge (self : CloudWalkKnowledgeBase)
  (clock : nat -> datetime) : CloudWalkKnowledgeBase :=
  match new_core_documents self clock with
  | [] => self
  | new_documents => _add_documents self new_documents
  end.

Record ProductInfo := {
  overview : pystr;
  features : pystr;
  pricing : pystr;
  other : list pystr
}.

(** One iteration of the loop of [get_product_info]. *)
Definition bucket (info : ProductInfo) (result : SearchHit) : ProductInfo :=
  let metadata := hit_metadata result in
  let subcategory := md_subcategory metadata in
  let title_lower := lower (md_title metadata) in
  if contains (str "overview") subcategory
     || contains (str "overview") title_lower
  then {| overview := hit_content result; features := features info;
          pricing := pricing info; other := other info |}
  else if contains (str "feature") subcategory
          || contains (str "feature") title_lower
  then {| overview := overview info; features := hit_content result;
          pricing := pricing info; other := other info |}
  else if contains (str "fee") subcategory
          || contains (str "pricing") subcategory
          || contains (str "taxa") subcategory
  then {| overview := overview info; features := features info;
          pricing := hit_content result; other := other info |}
  else {| overview := overview info; features := features info;
          pricing := pricing info;
          other := other info ++ [hit_content result] |}.

Definition product_request (product language : pystr) : SearchArgs :=
  {| query := product; n_results := 10; filter_language := Some language;
     filter_product := Some (lower product); filter_category := None |}.

Definition get_product_info (self : CloudWalkKnowledgeBase)
  (product language : pystr) : ProductInfo :=
  let results := search self (product_request product language) in
  fold_left bucket results
    {| overview := []; features := []; pricing := []; other := [] |}.

End Catalogue.

End KnowledgeBase.

(** ** [src/chatbot_engine.py] *)

Module Chatbot.

Import KnowledgeBase.

Inductive ConversationIntent :=
| GREETING | PRODUCT_INQUIRY | PRICING_QUESTION | TECHNICAL_SUPPORT
| COMPANY_INFO | FEATURE_EXPLANATION | COMPARISON | HOW_TO_START
| CONTACT_SALES | GENERAL_CHAT.

Inductive UserProfile :=
| NEW_MERCHANT | EXISTING_CUSTOMER | TECHNICAL_USER | INVESTOR | PARTNER
| GENERAL.

(** One entry of [conversation_history]: a dictionary with the keys
    ['role'] and ['content']. *)
Record HistoryEntry := { role : pystr; msg_content : pystr }.

Record ConversationContext := {
  session_id : pystr;
  ctx_language : pystr;
  user_profile : UserProfile;
  current_product : option pystr;
  conversation_history : list HistoryEntry;
  detected_intents : list ConversationIntent;
  ctx_metadata : list (pystr * pystr);
  created_at : datetime;
  last_interaction : datetime
}.

Inductive Message :=
| SystemMessage (content : pystr)
| HumanMessage (content : pystr)
| AIMessage (content : pystr).

(** Outcome of [llm.invoke]: the reply's [content], or an exception. *)
Inductive Invocation :=
| Returned (content : pystr)
| Raised (error : pystr).

Record CloudWalkChatbot := {
  language_manager : LanguageManager;
  knowledge_base : CloudWalkKnowledgeBase;
  llm : option (list Message -> Invocation)
}.

(** What one turn asks of its collaborators, in order. *)
Inductive Event :=
| Searched (a : SearchArgs)
| Invoked (messages : list Message)
| LoggedError (error : pystr).

Definition _initialize_intent_patterns
  : list (ConversationIntent * list regex) :=
  [ (GREETING,
     [words [lit "hi"; lit "hello"; lit "hey"; lit "ola"; lit "olá";
             lit "oi"; lit "hola"]]);
    (PRODUCT_INQUIRY,
     [words [lit "infinitepay"; lit "jim"; lit "stratus"; lit "product";
             lit "produto"]]);
    (PRICING_QUESTION,
     [words [lit "price"; lit "fee"; lit "rate"; lit "taxa"; lit "preço";
             lit "custo"; lit "quanto custa"]]) ].

Definition set_ctx_language (context : ConversationContext) (l : pystr)
  : ConversationContext :=
  {| session_id := session_id context;
     ctx_language := l;
     user_profile := user_profile context;
     current_product := current_product context;
     conversation_history := conversation_history context;
     detected_intents := detected_intents context;
     ctx_metadata := ctx_metadata context;
     created_at := created_at context;
     last_interaction := last_interaction context |}.

(** The two appends to [conversation_history] and the refresh of
    [last_interaction]. *)
Definition record_turn (context : ConversationContext)
  (user_input response_text : pystr) (now : datetime) : ConversationContext :=
  {| session_id := session_id context;
     ctx_language := ctx_language context;
     user_profile := user_profile context;
     current_product := current_product context;
     conversation_history :=
       (conversation_history context
          ++ [{| role := str "user"; msg_content := user_input |}])
          ++ [{| role := str "assistant"; msg_content := response_text |}];
     detected_intents := detected_intents context;
     ctx_metadata := ctx_metadata context;
     created_at := created_at context;
     last_interaction := now |}.

Definition nl : pystr := [10].

Definition build_system_prompt (context : ConversationContext) : pystr :=
  str "You are CloudWalk's AI assistant - friendly, knowledgeable, and passionate about helping merchants succeed!" ++ nl
  ++ str "Your personality is warm and professional. You are enthusiastic about our mission to democratize payments." ++ nl
  ++ str "Use only a few emojis appropriately to add warmth. Speak in "
  ++ ctx_language context ++ str "." ++ nl
  ++ nl
  ++ str "Key Products:" ++ nl
  ++ str "- InfinitePay: Brazil's revolutionary payment platform (0% Pix!)." ++ nl
  ++ str "- JIM: Instant payments for the US (1.99% - lowest in market!)." ++ nl
  ++ str "- STRATUS: Lightning-fast blockchain for global payments." ++ nl.

(** The argument list of the call [self.knowledge_base.search(...)]. *)
Definition search_request (query : pystr) (context : ConversationContext)
  : SearchArgs :=
  {| query := query;
     n_results := 3;
     filter_language :=
       if str_eqb (ctx_language context) (str "en") then None
       else Some (ctx_language context);
     filter_product := current_product context;
     filter_category := None |}.

Definition to_message (msg : HistoryEntry) : Message :=
  if str_eqb (role msg) (str "user")
  then HumanMessage (msg_content msg)
  else AIMessage (msg_content msg).

Definition not_configured : pystr :=
  str "The chatbot is not configured correctly. Missing API key.".

Definition apology : pystr :=
  str "I apologize, but I encountered an error. Please try again.".

(** The searches and the model invocations among the requests of a turn. *)
Definition searches (log : list Event) : list SearchArgs :=
  flat_map (fun e => match e with Searched a => [a] | _ => [] end) log.

Definition invocations (log : list Event) : list (list Message) :=
  flat_map (fun e => match e with Invoked m => [m] | _ => [] end) log.

Section Engine.
Context {U : Unicode} {C : Collaborators}.

Definition detect_intent (user_input : pystr) : list ConversationIntent :=
  let input_lower := lower user_input in
  let detected_intents :=
    flat_map
      (fun '(intent, patterns) =>
         if existsb (fun pattern => Re.search pattern input_lower) patterns
         then [intent] else [])
      _initialize_intent_patterns in
  match detected_intents with
  | [] => [GENERAL_CHAT]
  | _ => detected_intents
  end.

Definition search_knowledge (self : CloudWalkChatbot) (query : pystr)
  (context : ConversationContext) : list SearchHit :=
  KnowledgeBase.search (knowledge_base self) (search_request query context).

(** Step 1 of [generate_response]: the confidence-gated language update. *)
Definition update_language (self : CloudWalkChatbot) (user_input : pystr)
  (context : ConversationContext) : ConversationContext :=
  let lang_result := detect_language (language_manager self) user_input in
  if Qltb (6 # 10) (confidence lang_result)
  then set_ctx_language context (detected_language lang_result)
  else context.

(** Step 3: the list of messages for the chat model. *)
Definition build_messages (self : CloudWalkChatbot) (user_input : pystr)
  (context : ConversationContext) : list Message :=
  let knowledge_results := search_knowledge self user_input context in
  let knowledge_context := join nl (List.map hit_content knowledge_results) in
  ([ SystemMessage (build_system_prompt context);
     SystemMessage
       (str "Use this information to answer the user's question:" ++ nl
          ++ knowledge_context) ]
   ++ List.map to_message (last_n 4 (conversation_history context)))
  ++ [HumanMessage user_input].

(** [generate_response]: the returned pair, followed by the requests made
    to the collaborators. [now] is the value of [datetime.now()]. *)
Definition generate_response (self : CloudWalkChatbot) (user_input : pystr)
  (context : ConversationContext) (now : datetime)
  : pystr * ConversationContext * list Event :=
  match llm self with
  | None => (not_configured, context, [])
  | Some invoke =>
    let context := update_language self user_input context in
    let messages := build_messages self user_input context in
    let requests :=
      [Searched (search_request user_input context); Invoked messages] in
    match invoke messages with
    | Returned content =>
      let response_text := strip content in
      (response_text, record_turn context user_input response_text now,
       requests)
    | Raised e => (apology, context, requests ++ [LoggedError e])
    end
  end.

End Engine.

Definition format_response_with_brand (response : pystr) : pystr :=
  if negb (contains (str "💜") response) && negb (contains (str "🚀") response)
  then response ++ nl ++ nl ++ str "💜 CloudWalk - Payments made simple!"
  else response.

(** A session: one [generate_response] call per input on the same context
    object, each at its own instant. *)
Definition turns {U : Unicode} {C : Collaborators} (self : CloudWalkChatbot)
  (inputs : list (pystr * datetime)) (context : ConversationContext)
  : ConversationContext :=
  fold_left
    (fun context input => (generate_response self input.1 context input.2).1.2)
    inputs context.

End Chatbot.

Import KnowledgeBase Chatbot.

(** ** [src/config.py] *)

Module Config.

(** [[lang.strip() for lang in languages.split(",")]] *)
Definition parse_languages (languages : pystr) : list pystr :=
  List.map strip (split_on 44 languages).

End Config.

(** ** Concrete collaborators and sessions used to evaluate the code *)

Module Examples.

(** Collaborators that hash to the text itself and retrieve nothing. *)
Definition idle : Collaborators :=
  {| md5_hexdigest := fun content => content;
     collection_query := fun _ _ _ _ => [] |}.

Definition empty_kb : CloudWalkKnowledgeBase := {| collection := ∅ |}.

(** A chatbot whose model raises on every invocation. *)
Definition failing_bot : CloudWalkChatbot :=
  {| language_manager := LanguageManager.language_manager;
     knowledge_base := empty_kb;
     llm := Some (fun _ => Raised (str "timeout")) |}.

(** A chatbot whose language manager was constructed with the default
    ['pt-BR'] and whose model answers with a fixed text. *)
Definition portuguese_bot : CloudWalkChatbot :=
  {| language_manager := LanguageManager.__init__ (str "pt-BR");
     knowledge_base := empty_kb;
     llm := Some (fun _ => Returned (str " ok ")) |}.

(** A chatbot whose model answers with a fixed text. *)
Definition echo_bot : CloudWalkChatbot :=
  {| language_manager := LanguageManager.language_manager;
     knowledge_base := empty_kb;
     llm := Some (fun _ => Returned (str " ok ")) |}.

(** [ConversationContext(session_id="s")] created at instant 0. *)
Definition fresh_context : ConversationContext :=
  {| session_id := str "s"; ctx_language := str "en";
     user_profile := GENERAL; current_product := None;
     conversation_history := []; detected_intents := [];
     ctx_metadata := []; created_at := 0; last_interaction := 0 |}.

Definition turn (n : N) : list HistoryEntry :=
  [ {| role := str "user"; msg_content := [48 + n] |};
    {| role := str "assistant"; msg_content := [65 + n] |} ].

(** A context with ten history entries. *)
Definition long_context : ConversationContext :=
  {| session_id := str "s"; ctx_language := str "en";
     user_profile := GENERAL; current_product := Some (str "jim");
     conversation_history := turn 0 ++ turn 1 ++ turn 2 ++ turn 3 ++ turn 4;
     detected_intents := [];
     ctx_metadata := []; created_at := 0; last_interaction := 9 |}.

Definition no_kwargs : Kwargs :=
  {| kw_subcategory := None; kw_product := None; kw_last_updated := None;
     kw_metadata := None |}.


(** A formatter that prints every amount as [1,234.50]. *)
Definition fixed_format : Formatting := {| format_2f := fun _ => str "1,234.50" |}.

(** A chatbot without model: [GROQ_API_KEY] was not set. *)
Definition unconfigured_bot : CloudWalkChatbot :=
  {| language_manager := LanguageManager.language_manager;
     knowledge_base := empty_kb;
     llm := None |}.

(** A model that raises when the user asks for [boom]. *)
Definition moody_bot : CloudWalkChatbot :=
  {| language_manager := LanguageManager.language_manager;
     knowledge_base := empty_kb;
     llm := Some (fun messages =>
                    match last messages with
                    | Some (HumanMessage content) =>
                      if str_eqb content (str "boom")
                      then Raised (str "boom") else Returned (str " fine ")
                    | _ => Returned []
                    end) |}.

(** Three hits for the product [jim]: an overview, a document titled
    ["JIM Fees"] filed under the subcategory [costs], and one filed under
    [fees]. *)
Definition hit (title subcategory content : pystr) : SearchHit :=
  {| hit_id := title; hit_content := content;
     hit_metadata :=
       {| md_title := title; md_category := str "products";
          md_subcategory := subcategory; md_tags := [];
          md_language := str "en"; md_product := str "jim";
          md_last_updated := 0 |};
     hit_distance := None |}.

Definition jim_hits : list SearchHit :=
  [ hit (str "JIM Overview") (str "jim") (str "instant payments");
    hit (str "JIM Fees") (str "costs") (str "1.99% per transaction");
    hit (str "JIM Rates") (str "fees") (str "no monthly charges") ].

Definition jim_catalogue : Collaborators :=
  {| md5_hexdigest := fun content => content;
     collection_query := fun _ _ _ _ => jim_hits |}.

End Examples.

Import Examples.

(** * Properties *)

(** ** LanguageManager.set_language *)

Lemma is_profile_spec (language : pystr) :
  is_profile language = true <-> language ∈ profile_keys.
Proof.
  unfold is_profile, str_eqb. rewrite existsb_exists. split.
  - intros (k & Hin & Hk). apply bool_decide_eq_true in Hk. subst k.
    by apply list_elem_of_In.
  - intros Hin. exists language. split; [by apply list_elem_of_In|].
    by apply bool_decide_eq_true.
Qed.

Lemma set_language_default (self : LanguageManager) (language : pystr) :
  default_language (set_language self language) = default_language self.
Proof. unfold set_language. by destruct (is_profile language). Qed.

Lemma set_language_current (self : LanguageManager) (language : pystr) :
  current_language (set_language self language) = current_language self
  \/ current_language (set_language self language) ∈ profile_keys.
Proof.
  unfold set_language. destruct (is_profile language) eqn:E; [|by left].
  right. by apply is_profile_spec.
Qed.

Lemma set_languages_current (calls : list pystr) :
  forall self : LanguageManager,
    current_language (set_languages self calls) = current_language self
    \/ current_language (set_languages self calls) ∈ profile_keys.
Proof.
  unfold set_languages.
  induction calls as [|language calls IH]; intros self; simpl; [by left|].
  destruct (IH (set_language self language)) as [Heq|Hin]; [|by right].
  rewrite Heq. apply set_language_current.
Qed.

(** C10: [set_language] with a code that is no key of [LANGUAGE_PATTERNS]
    returns the manager unchanged, and after any sequence of
    [set_language] calls on a freshly constructed manager
    [current_language] is the constructor's default or a profile key. *)
Theorem set_language_guard :
  (forall (self : LanguageManager) (language : pystr),
      language ∉ profile_keys -> set_language self language = self)
  /\ (forall (default : pystr) (calls : list pystr),
        let final := set_languages (__init__ default) calls in
        current_language final = default
        \/ current_language final ∈ profile_keys).
Proof.
  split.
  - intros self language Hnot. unfold set_language.
    destruct (is_profile language) eqn:E; [|done].
    by apply is_profile_spec in E.
  - intros default calls. apply (set_languages_current calls (__init__ default)).
Qed.

Lemma set_language_guard_witness :
  set_language (set_language LanguageManager.language_manager (str "pt-BR"))
    (str "es")
  = set_language LanguageManager.language_manager (str "pt-BR")
  /\ (current_language
        (set_languages (__init__ (str "fr")) [str "es"; str "pt-BR"; str "de"])
      = str "fr"
      \/ current_language
           (set_languages (__init__ (str "fr"))
              [str "es"; str "pt-BR"; str "de"]) ∈ profile_keys).
Proof.
  split.
  - apply (proj1 set_language_guard).
    intros H. apply is_profile_spec in H. vm_compute in H. discriminate H.
  - apply (proj2 set_language_guard).
Defined.

(** ** CloudWalkChatbot.detect_intent *)

Section IntentFacts.
Context {U : Unicode}.

Lemma detected_sublist {A B} (f : B -> bool) (items : list (A * B)) :
  flat_map (fun '(intent, patterns) => if f patterns then [intent] else [])
    items `sublist_of` List.map fst items.
Proof.
  induction items as [|[intent patterns] items IH]; simpl; [constructor|].
  destruct (f patterns); simpl.
  - by apply sublist_skip.
  - by apply sublist_cons.
Qed.

Lemma detected_none {A B} (f : B -> bool) (items : list (A * B)) :
  Forall (fun item => f item.2 = false) items ->
  flat_map (fun '(intent, patterns) => if f patterns then [intent] else [])
    items = [].
Proof.
  induction 1 as [|[intent patterns] items Hf _ IH]; simpl; [done|].
  simpl in Hf. by rewrite Hf, IH.
Qed.

Lemma intent_keys_NoDup : NoDup (List.map fst _initialize_intent_patterns).
Proof.
  apply NoDup_ListNoDup. simpl.
  repeat (constructor; [simpl; intuition discriminate|]). constructor.
Qed.

(** C5: [detect_intent] returns a non-empty list without duplicates, and
    exactly [[GENERAL_CHAT]] when no pattern of any intent matches the
    lower-cased input. *)
Theorem detect_intent_shape (user_input : pystr) :
  detect_intent user_input <> []
  /\ NoDup (detect_intent user_input)
  /\ (Forall
        (fun item : ConversationIntent * list regex =>
           Forall (fun pattern => Re.search pattern (lower user_input) = false)
             item.2)
        _initialize_intent_patterns ->
      detect_intent user_input = [GENERAL_CHAT]).
Proof.
  unfold detect_intent.
  set (f := fun patterns : list regex =>
              existsb (fun pattern => Re.search pattern (lower user_input))
                patterns).
  pose proof (detected_sublist f _initialize_intent_patterns) as Hsub.
  pose proof (detected_none f _initialize_intent_patterns) as Hnone.
  destruct (flat_map _ _initialize_intent_patterns) as [|intent rest] eqn:E.
  - split; [done|]. split; [|done].
    apply NoDup_singleton.
  - split; [done|]. split.
    + eapply sublist_NoDup; [apply intent_keys_NoDup | exact Hsub].
    + intros Hall. exfalso.
      assert (intent :: rest = []) as Habs; [|done].
      apply Hnone. eapply Forall_impl; [exact Hall|].
      intros [intent' patterns] Hp. simpl in *. unfold f.
      apply not_true_is_false. rewrite existsb_exists.
      intros (pattern & Hin & Hs).
      rewrite Forall_forall in Hp.
      apply list_elem_of_In in Hin. specialize (Hp pattern Hin). congruence.
Qed.

End IntentFacts.

Lemma detect_intent_shape_witness :
  detect_intent (U := latin1) (str "zzz 123") = [GENERAL_CHAT].
Proof.
  apply (detect_intent_shape (U := latin1) (str "zzz 123")).
  repeat (constructor; [repeat constructor|]). constructor.
Defined.

(** C2, the code at its input: on ["Hello, what are your fees?"] the
    classifier returns exactly [[GREETING]] and misses the pricing
    question. The pricing pattern lists [fee] and does catch
    ["Hello, what is your fee?"], but its closing [\b] rejects [fee]
    followed by [s]; the two subjects the assistant's own call to action
    names, [fees] and [products], are both classified [[GENERAL_CHAT]]. *)
Theorem detect_intent_fees :
  detect_intent (U := latin1) (str "Hello, what are your fees?") = [GREETING]
  /\ detect_intent (U := latin1) (str "Hello, what is your fee?")
     = [GREETING; PRICING_QUESTION]
  /\ detect_intent (U := latin1) (str "fees") = [GENERAL_CHAT]
  /\ detect_intent (U := latin1) (str "products") = [GENERAL_CHAT]
  /\ get_localized_content LanguageManager.language_manager (str "cta")
       (Some (str "en"))
     = Text (str "Want to know more? Ask me about our products, fees, or anything else!").
Proof. repeat split; vm_compute; reflexivity. Qed.

(** The input of C2 is not classified as a pricing question. *)
Lemma detect_intent_fees_counterexample :
  ~ PRICING_QUESTION
      ∈ detect_intent (U := latin1) (str "Hello, what are your fees?").
Proof.
  assert (detect_intent (U := latin1) (str "Hello, what are your fees?")
          = [GREETING]) as -> by (vm_compute; reflexivity).
  intros H. apply list_elem_of_singleton in H. discriminate H.
Qed.

(** ** CloudWalkKnowledgeBase.add_custom_knowledge *)

Section KnowledgeFacts.
Context {C : Collaborators}.

Lemma collection_add_one_present (coll : Collection) (e : pystr * Entry) :
  is_Some (collection_add_one coll e !! e.1).
Proof.
  unfold collection_add_one. destruct (coll !! e.1) eqn:E.
  - rewrite E. eauto.
  - rewrite lookup_insert_eq. eauto.
Qed.

Lemma collection_add_one_known (coll : Collection) (e : pystr * Entry) :
  is_Some (coll !! e.1) -> collection_add_one coll e = coll.
Proof. intros [x Hx]. unfold collection_add_one. by rewrite Hx. Qed.

Lemma add_documents_single (self : CloudWalkKnowledgeBase)
  (doc : KnowledgeDocument) :
  _add_documents self [doc]
  = {| collection :=
         collection_add_one (collection self)
           (id doc, {| entry_document := content doc;
                       entry_metadata := document_metadata doc |}) |}.
Proof. reflexivity. Qed.

(** C3: two calls of [add_custom_knowledge] with the same title and
    content (whatever the other arguments) return the same id, and the
    second call leaves the store as the first call left it: same number of
    entries, no duplicate. *)
Theorem add_custom_knowledge_twice
  (self : CloudWalkKnowledgeBase) (title content : pystr)
  (category1 category2 : pystr) (tags1 tags2 : list pystr)
  (language1 language2 : pystr) (kwargs1 kwargs2 : Kwargs)
  (now1 now2 : datetime) :
  let first :=
    add_custom_knowledge self title content category1 tags1 language1
      kwargs1 now1 in
  let second :=
    add_custom_knowledge first.2 title content category2 tags2 language2
      kwargs2 now2 in
  second.1 = first.1
  /\ size (collection second.2) = size (collection first.2)
  /\ second.2 = first.2
  /\ is_Some (collection first.2 !! first.1).
Proof.
  unfold add_custom_knowledge. cbn [fst snd].
  rewrite !add_documents_single. cbn [collection KnowledgeBase.id KnowledgeBase.content].
  set (doc_id := _generate_id (title ++ str "_" ++ content)).
  set (e1 := (doc_id, _)). set (e2 := (doc_id, _)).
  pose proof (collection_add_one_present (collection self) e1) as Hin.
  rewrite (collection_add_one_known _ e2 Hin).
  done.
Qed.

End KnowledgeFacts.

(** ** LanguageManager.detect_language *)

Lemma Qltb_lt (x y : Q) : Qltb x y = true <-> (x < y)%Q.
Proof.
  unfold Qltb. rewrite Qlt_alt. destruct (x ?= y)%Q; intuition discriminate.
Qed.

Lemma insert_desc_Forall (P : pystr * Q -> Prop) x l :
  P x -> Forall P l -> Forall P (insert_desc x l).
Proof.
  intros Hx. induction 1 as [|y l Hy Hl IH]; simpl.
  - by repeat constructor.
  - destruct (Qltb x.2 y.2); repeat constructor; done.
Qed.

Lemma sorted_desc_Forall (P : pystr * Q -> Prop) l :
  Forall P l -> Forall P (sorted_desc l).
Proof.
  unfold sorted_desc. induction 1; simpl; [constructor|].
  by apply insert_desc_Forall.
Qed.

Section DetectionFacts.
Context {U : Unicode}.

Lemma pattern_loop_invariant (text_lower : pystr) (ps : list regex) :
  forall score matches : nat,
    score = (2 * matches)%nat ->
    let out :=
      fold_left
        (fun '(score, matches) pattern =>
           let pattern_matches := findall_count pattern text_lower in
           (score + pattern_matches * 2, matches + pattern_matches)%nat)
        ps (score, matches) in
    out.1 = (2 * out.2)%nat.
Proof.
  induction ps as [|p ps IH]; intros score matches Hinv; simpl; [done|].
  apply IH. lia.
Qed.

Lemma pattern_loop_score (cfg : LanguageConfig) (text_lower : pystr) :
  (pattern_loop cfg text_lower).1
  = (2 * pattern_matches cfg text_lower)%nat.
Proof. by apply pattern_loop_invariant. Qed.

Lemma lang_score_nonneg (cfg : LanguageConfig) (text_lower : pystr) :
  (0 <= lang_score cfg text_lower)%Q.
Proof.
  unfold lang_score. destruct (0 <? _)%nat; [|apply Qle_refl].
  unfold Qle. simpl. lia.
Qed.

Lemma lang_score_no_tokens (cfg : LanguageConfig) (text_lower : pystr) :
  split text_lower = [] -> lang_score cfg text_lower = 0%Q.
Proof. intros H. unfold lang_score. by rewrite H. Qed.

Lemma lang_score_no_match (cfg : LanguageConfig) (text_lower : pystr) :
  pattern_matches cfg text_lower = O ->
  stop_word_matches cfg (split text_lower) = O ->
  (lang_score cfg text_lower == 0)%Q.
Proof.
  intros Hp Hs. unfold lang_score.
  rewrite pattern_loop_score, Hp, Hs.
  destruct (0 <? _)%nat; [|reflexivity]. reflexivity.
Qed.

Lemma scores_Forall (P : pystr * Q -> Prop) (text_lower : pystr) :
  (forall lang cfg, P (lang, lang_score cfg text_lower)) ->
  Forall P (scores text_lower).
Proof.
  intros H. unfold scores. apply Forall_forall. intros e He.
  apply list_elem_of_In, in_map_iff in He as ([lang cfg] & <- & _). apply H.
Qed.

Lemma sorted_scores_nonneg (text : pystr) :
  Forall (fun e : pystr * Q => (0 <= e.2)%Q) (sorted_scores text).
Proof.
  apply sorted_desc_Forall, scores_Forall. intros. apply lang_score_nonneg.
Qed.

(** C6: when every per-language score is zero, in particular when the
    input has no whitespace-separated token or matches no pattern and no
    stop word of any profile, [detect_language] returns the manager's
    default language with confidence 0 and no alternative. *)
Theorem detect_language_no_signal (self : LanguageManager) (text : pystr) :
  split (lower text) = []
  \/ Forall
       (fun e : pystr * LanguageConfig =>
          pattern_matches e.2 (lower text) = O
          /\ stop_word_matches e.2 (split (lower text)) = O)
       LANGUAGE_PATTERNS
  \/ Forall (fun e : pystr * Q => (e.2 == 0)%Q) (scores (lower text)) ->
  detect_language self text
  = {| detected_language := default_language self; confidence := 0%Q;
       alternative_language := None; alternative_confidence := None |}.
Proof.
  intros H.
  assert (Forall (fun e : pystr * Q => (e.2 == 0)%Q) (scores (lower text)))
    as Hzero.
  { destruct H as [H|[H|H]]; [| |done].
    - apply scores_Forall. intros lang cfg. simpl.
      by rewrite lang_score_no_tokens.
    - unfold scores. apply Forall_fmap. eapply Forall_impl; [exact H|].
      intros [lang cfg] [Hp Hs]. simpl in *. by apply lang_score_no_match. }
  apply sorted_desc_Forall in Hzero. fold (sorted_scores text) in Hzero.
  unfold detect_language.
  destruct (sorted_scores text) as [|[top_lang top_score] others]; [done|].
  apply Forall_cons_1 in Hzero as [Htop _]. simpl in Htop.
  apply Qeq_bool_iff in Htop. by rewrite Htop.
Qed.

Lemma confidence_bounds (score : Q) :
  (0 <= score)%Q -> (0 <= Qmin (score / (1 # 2)) 1 <= 1)%Q.
Proof.
  intros H. split; [|apply Q.le_min_r].
  apply Q.min_glb; [|discriminate].
  apply Qle_shift_div_l; [reflexivity|]. by rewrite Qmult_0_l.
Qed.

(** C8: the confidence of a detection lies in [0,1]; so does the
    alternative confidence when there is one; and an alternative language
    is reported only when it is the second-ranked language and its score
    is at least 70% of the top score. *)
Theorem detect_language_result (self : LanguageManager) (text : pystr) :
  let result := detect_language self text in
  (0 <= confidence result <= 1)%Q
  /\ (forall c, alternative_confidence result = Some c -> (0 <= c <= 1)%Q)
  /\ (forall alt_lang,
        alternative_language result = Some alt_lang ->
        exists top second others,
          sorted_scores text = top :: second :: others
          /\ second.1 = alt_lang
          /\ ((7 # 10) * top.2 <= second.2)%Q).
Proof.
  pose proof (sorted_scores_nonneg text) as Hnn.
  unfold detect_language.
  destruct (sorted_scores text) as [|[top_lang top_score] others] eqn:E.
  { simpl. repeat split; try discriminate. }
  apply Forall_cons_1 in Hnn as [Htop Hnn]. simpl in Htop.
  destruct (Qeq_bool top_score 0) eqn:Ez.
  { simpl. repeat split; try discriminate. }
  apply Qeq_bool_neq in Ez.
  assert (0 < top_score)%Q as Hpos.
  { apply Qle_lteq in Htop as [Hlt|Heq]; [done|]. by symmetry in Heq. }
  destruct others as [|[alt_lang alt_score] rest].
  { simpl. split; [by apply confidence_bounds|]. split; discriminate. }
  apply Forall_cons_1 in Hnn as [Halt _]. simpl in Halt.
  destruct (Qltb 0 alt_score && Qltb (7 # 10) (alt_score / top_score)) eqn:Ec.
  - apply andb_true_iff in Ec as [_ Hratio]. apply Qltb_lt in Hratio.
    simpl. split; [by apply confidence_bounds|]. split.
    + intros c [= <-]. by apply confidence_bounds.
    + intros l [= <-]. exists (top_lang, top_score), (alt_lang, alt_score), rest.
      split; [done|]. split; [done|]. simpl.
      apply Qlt_le_weak.
      apply (Qmult_lt_compat_r _ _ top_score) in Hratio; [|done].
      assert (alt_score / top_score * top_score == alt_score)%Q as Hcancel
        by (field; exact Ez).
      by rewrite Hcancel in Hratio.
  - simpl. split; [by apply confidence_bounds|]. split; discriminate.
Qed.

(** C9: at a fixed number of whitespace tokens, a profile's score does not
    decrease when neither its pattern matches nor its stop-word matches
    decrease. *)
Theorem lang_score_monotone (cfg : LanguageConfig) (text1 text2 : pystr) :
  length (split (lower text1)) = length (split (lower text2)) ->
  (pattern_matches cfg (lower text1) <= pattern_matches cfg (lower text2))%nat ->
  (stop_word_matches cfg (split (lower text1))
   <= stop_word_matches cfg (split (lower text2)))%nat ->
  (lang_score cfg (lower text1) <= lang_score cfg (lower text2))%Q.
Proof.
  intros Hlen Hp Hs. unfold lang_score.
  rewrite !pattern_loop_score, Hlen.
  destruct (0 <? _)%nat; [|apply Qle_refl].
  unfold Qle. simpl. apply Z.mul_le_mono_nonneg_r; lia.
Qed.

End DetectionFacts.

Lemma detect_language_no_signal_witness :
  detect_language (U := latin1) LanguageManager.language_manager (str "  ")
  = {| detected_language := str "en"; confidence := 0%Q;
       alternative_language := None; alternative_confidence := None |}.
Proof.
  apply (detect_language_no_signal (U := latin1)). left. reflexivity.
Defined.

Lemma detect_language_result_witness :
  exists top second others,
    sorted_scores (U := latin1) (str "a") = top :: second :: others
    /\ second.1 = str "en"
    /\ ((7 # 10) * top.2 <= second.2)%Q.
Proof.
  apply (detect_language_result (U := latin1)
           LanguageManager.language_manager (str "a")).
  vm_compute. reflexivity.
Defined.

Lemma lang_score_monotone_witness :
  (lang_score (U := latin1) pt_BR (lower (Unicode := latin1) (str "Pix agora"))
   <= lang_score (U := latin1) pt_BR
        (lower (Unicode := latin1) (str "Pix taxa")))%Q.
Proof.
  apply (lang_score_monotone (U := latin1)).
  - reflexivity.
  - vm_compute. lia.
  - vm_compute. lia.
Defined.

(** ** CloudWalkChatbot.generate_response *)

Lemma set_ctx_language_same (context : ConversationContext) :
  set_ctx_language context (ctx_language context) = context.
Proof. by destruct context. Qed.

Section EngineFacts.
Context {U : Unicode} {C : Collaborators}.

Lemma update_language_frame (self : CloudWalkChatbot) (user_input : pystr)
  (context : ConversationContext) :
  update_language self user_input context
  = set_ctx_language context
      (ctx_language (update_language self user_input context)).
Proof.
  unfold update_language. destruct (Qltb _ _); simpl; [done|].
  by rewrite set_ctx_language_same.
Qed.

Lemma update_language_history (self : CloudWalkChatbot) (user_input : pystr)
  (context : ConversationContext) :
  conversation_history (update_language self user_input context)
  = conversation_history context.
Proof. rewrite update_language_frame. reflexivity. Qed.

Lemma update_language_product (self : CloudWalkChatbot) (user_input : pystr)
  (context : ConversationContext) :
  current_product (update_language self user_input context)
  = current_product context.
Proof. rewrite update_language_frame. reflexivity. Qed.

(** The context a configured chatbot returns carries the language and the
    product that step 1 left in it. *)
Lemma generate_response_language (self : CloudWalkChatbot)
  (user_input : pystr) (context : ConversationContext) (now : datetime)
  (invoke : list Message -> Invocation) :
  llm self = Some invoke ->
  let out := generate_response self user_input context now in
  ctx_language out.1.2
  = ctx_language (update_language self user_input context)
  /\ current_product out.1.2 = current_product context.
Proof.
  intros Hllm. unfold generate_response. rewrite Hllm.
  destruct (invoke _); simpl; by rewrite update_language_product.
Qed.

(** C1, as the code behaves: when the model invocation raises,
    [generate_response] returns the fixed apology, the history and every
    field other than the language are as before the call, and the language
    is the one step 1 left: the detected language when the detection
    confidence exceeds 0.6, the previous language otherwise. *)
Theorem generate_response_failure (self : CloudWalkChatbot)
  (user_input : pystr) (context : ConversationContext) (now : datetime)
  (invoke : list Message -> Invocation) (error : pystr) :
  llm self = Some invoke ->
  invoke (build_messages self user_input
            (update_language self user_input context)) = Raised error ->
  let out := generate_response self user_input context now in
  let detection := detect_language (language_manager self) user_input in
  out.1.1 = apology
  /\ conversation_history out.1.2 = conversation_history context
  /\ out.1.2 = set_ctx_language context (ctx_language out.1.2)
  /\ ctx_language out.1.2
     = (if Qltb (6 # 10) (confidence detection)
        then detected_language detection
        else ctx_language context).
Proof.
  intros Hllm Hraise. unfold generate_response. rewrite Hllm, Hraise.
  cbn [fst snd]. split; [done|]. split; [apply update_language_history|].
  split; [apply update_language_frame|].
  unfold update_language. by destruct (Qltb _ _).
Qed.

(** C4, as the code behaves: the search a turn issues has the user input
    as query, asks for 3 results, filters on the context's language
    exactly when it differs from the literal ['en'], whatever the default
    language of the chatbot's language manager, filters on the context's
    current product and puts no constraint on the category. The context is
    the one in use when the search is made, that is with the language
    step 1 left in it. *)
Theorem search_knowledge_request (self : CloudWalkChatbot)
  (user_input : pystr) (context : ConversationContext) (now : datetime)
  (invoke : list Message -> Invocation) :
  llm self = Some invoke ->
  let request (context : ConversationContext) :=
    {| query := user_input;
       n_results := 3;
       filter_language :=
         if decide (ctx_language context = str "en")
         then None else Some (ctx_language context);
       filter_product := current_product context;
       filter_category := None |} in
  let out := generate_response self user_input context now in
  search_knowledge self user_input context
  = KnowledgeBase.search (knowledge_base self) (request context)
  /\ searches out.2 = [request out.1.2].
Proof.
  intros Hllm request out.
  assert (forall c, search_request user_input c = request c) as Hreq.
  { intros c. unfold search_request, request, str_eqb.
    f_equal. case_bool_decide; case_decide; done. }
  split.
  - unfold search_knowledge. by rewrite Hreq.
  - pose proof (generate_response_language self user_input context now
                  invoke Hllm) as [Hlang Hprod].
    fold out in Hlang, Hprod.
    assert (request out.1.2
            = request (update_language self user_input context)) as ->.
    { unfold request. by rewrite Hlang, Hprod, update_language_product. }
    subst out. unfold generate_response. rewrite Hllm.
    destruct (invoke _); simpl; by rewrite Hreq.
Qed.



End EngineFacts.

Lemma generate_response_failure_witness :
  let out :=
    generate_response (U := latin1) (C := idle) failing_bot
      (str "Qual a taxa do Pix?") fresh_context 1 in
  out.1.1 = apology
  /\ conversation_history out.1.2 = []
  /\ out.1.2 = set_ctx_language fresh_context (ctx_language out.1.2)
  /\ ctx_language out.1.2 = str "pt-BR".
Proof.
  apply (generate_response_failure (U := latin1) (C := idle) failing_bot
           (str "Qual a taxa do Pix?") fresh_context 1
           (fun _ => Raised (str "timeout")) (str "timeout"));
    reflexivity.
Defined.

(** The model raises on ["Qual a taxa do Pix?"] in a fresh English
    session: the apology is returned with a context whose language has
    become ['pt-BR']. *)
Lemma generate_response_failure_counterexample :
  let out :=
    generate_response (U := latin1) (C := idle) failing_bot
      (str "Qual a taxa do Pix?") fresh_context 1 in
  out.1.1 = apology
  /\ ctx_language fresh_context = str "en"
  /\ ctx_language out.1.2 = str "pt-BR"
  /\ out.1.2 <> fresh_context.
Proof.
  split; [vm_compute; reflexivity|]. split; [reflexivity|].
  split; [vm_compute; reflexivity|].
  intros H. apply (f_equal ctx_language) in H. vm_compute in H.
  discriminate H.
Qed.

Lemma search_knowledge_request_witness :
  searches
    (generate_response (U := latin1) (C := idle) echo_bot
       (str "Qual a taxa do Pix?") long_context 1).2
  = [ {| query := str "Qual a taxa do Pix?"; n_results := 3;
         filter_language := Some (str "pt-BR");
         filter_product := Some (str "jim"); filter_category := None |} ].
Proof.
  apply (search_knowledge_request (U := latin1) (C := idle) echo_bot
           (str "Qual a taxa do Pix?") long_context 1
           (fun _ => Returned (str " ok ")) eq_refl).
Defined.

(** A chatbot whose language manager was constructed with the default
    ['pt-BR']: in a Portuguese session, where the language equals that
    default, the search still filters on ['pt-BR'], and in an English
    session, where it differs from it, the search has no language filter. *)
Lemma search_knowledge_request_counterexample :
  let portuguese := set_ctx_language fresh_context (str "pt-BR") in
  default_language (language_manager portuguese_bot) = str "pt-BR"
  /\ ctx_language portuguese = default_language (language_manager portuguese_bot)
  /\ List.map filter_language
       (searches
          (generate_response (U := latin1) (C := idle) portuguese_bot
             (str "zzz") portuguese 1).2)
     = [Some (str "pt-BR")]
  /\ ctx_language fresh_context
     <> default_language (language_manager portuguese_bot)
  /\ List.map filter_language
       (searches
          (generate_response (U := latin1) (C := idle) portuguese_bot
             (str "zzz") fresh_context 1).2)
     = [None].
Proof.
  cbv zeta. split; [reflexivity|]. split; [reflexivity|].
  split; [vm_compute; reflexivity|]. split; [|vm_compute; reflexivity].
  vm_compute. discriminate.
Qed.


(** With ten stored entries and a model that answers, the prompt carries
    entries 7 to 10 followed by the new input, and the turn appends the
    user entry and the stripped reply. *)
Example history_window_ten :
  let out :=
    generate_response (U := latin1) (C := idle) echo_bot (str "hi")
      long_context 1 in
  List.map (drop 2) (invocations out.2)
  = [ [HumanMessage (str "3"); AIMessage (str "D");
       HumanMessage (str "4"); AIMessage (str "E");
       HumanMessage (str "hi")] ]
  /\ conversation_history out.1.2
     = conversation_history long_context
         ++ [ {| role := str "user"; msg_content := str "hi" |};
              {| role := str "assistant"; msg_content := str "ok" |} ].
Proof. split; vm_compute; reflexivity. Qed.

(** The scores behind the language switch above: 6/5 for ['pt-BR']
    ([taxa], [pix], and the stop words [a], [do]) against 3/5 for ['en']. *)
Example scores_pix :
  scores (U := latin1) (lower (Unicode := latin1) (str "Qual a taxa do Pix?"))
  = [(str "pt-BR", 6 # 5); (str "en", 3 # 5)].
Proof. vm_compute. reflexivity. Qed.

(** Adding the same title and content twice to an empty store leaves one
    entry. *)
Example add_custom_knowledge_empty :
  let first :=
    add_custom_knowledge (C := idle) empty_kb (str "Pix") (str "0% fee")
      (str "products") [str "pix"] (str "en") no_kwargs 1 in
  let second :=
    add_custom_knowledge (C := idle) first.2 (str "Pix") (str "0% fee")
      (str "pricing") [] (str "en") no_kwargs 2 in
  second.1 = str "Pix_0% fee"
  /\ size (collection first.2) = 1%nat
  /\ size (collection second.2) = 1%nat.
Proof. vm_compute. done. Qed.

(** * Further properties of the code *)

(** ** LanguageManager: the history of language choices *)

Lemma set_languages_trace (calls : list pystr) :
  forall self : LanguageManager,
    language_history (set_languages self calls)
    = language_history self ++ List.filter is_profile calls
    /\ current_language (set_languages self calls)
       = default (current_language self) (last (List.filter is_profile calls))
    /\ default_language (set_languages self calls) = default_language self.
Proof.
  unfold set_languages.
  induction calls as [|language calls IH]; intros self; simpl.
  - by rewrite app_nil_r.
  - destruct (IH (set_language self language)) as (Hh & Hc & Hd).
    rewrite Hh, Hc, Hd. unfold set_language.
    destruct (is_profile language) eqn:E; simpl; [|done].
    rewrite <- app_assoc. split; [done|]. split; [|done].
    destruct (List.filter is_profile calls) as [|l ls] eqn:El; [done|].
    simpl. by rewrite !last_cons; destruct (last ls).
Qed.

(** X1: after any sequence of [set_language] calls on a new manager,
    [language_history] is the sequence of the accepted codes (those that
    are keys of [LANGUAGE_PATTERNS]) in call order, [current_language] is
    the last accepted code, or the constructor's default when none was
    accepted, and [default_language] is still the constructor's. *)
Theorem set_languages_history (default_code : pystr) (calls : list pystr) :
  let final := set_languages (__init__ default_code) calls in
  language_history final = List.filter is_profile calls
  /\ current_language final = default default_code (last (language_history final))
  /\ default_language final = default_code.
Proof.
  destruct (set_languages_trace calls (__init__ default_code)) as (Hh & Hc & Hd).
  simpl in *. by rewrite Hh, Hc, Hd.
Qed.

(** ** LanguageManager.detect_language: ranking *)

Lemma Qltb_ge (x y : Q) : Qltb x y = false <-> (y <= x)%Q.
Proof.
  split.
  - intros H. apply Qnot_lt_le. intros Hlt. apply Qltb_lt in Hlt. congruence.
  - intros H. apply not_true_is_false. intros Hlt. apply Qltb_lt in Hlt.
    by apply Qlt_not_le in Hlt.
Qed.

Lemma insert_desc_perm (x : pystr * Q) (l : list (pystr * Q)) :
  insert_desc x l ≡ₚ x :: l.
Proof.
  induction l as [|y l IH]; simpl; [done|].
  destruct (Qltb x.2 y.2); [|done].
  rewrite IH. apply Permutation_swap.
Qed.

Lemma sorted_desc_perm (l : list (pystr * Q)) : sorted_desc l ≡ₚ l.
Proof.
  unfold sorted_desc. induction l as [|x l IH]; simpl; [done|].
  by rewrite insert_desc_perm, IH.
Qed.

Lemma insert_desc_sorted (x : pystr * Q) (l : list (pystr * Q)) :
  StronglySorted (fun a b => (b.2 <= a.2)%Q) l ->
  StronglySorted (fun a b => (b.2 <= a.2)%Q) (insert_desc x l).
Proof.
  induction 1 as [|y l Hs IH Hy]; simpl.
  - repeat constructor.
  - destruct (Qltb x.2 y.2) eqn:E.
    + constructor; [done|]. rewrite insert_desc_perm. constructor; [|done].
      apply Qltb_lt in E. by apply Qlt_le_weak.
    + apply Qltb_ge in E. constructor; [by constructor|].
      constructor; [done|]. eapply Forall_impl; [exact Hy|].
      intros z Hz. simpl in *. by eapply Qle_trans.
Qed.

Lemma sorted_desc_sorted (l : list (pystr * Q)) :
  StronglySorted (fun a b => (b.2 <= a.2)%Q) (sorted_desc l).
Proof.
  unfold sorted_desc. induction l as [|x l IH]; simpl; [constructor|].
  by apply insert_desc_sorted.
Qed.

(** The head of the ranking carries a maximal score. *)
Lemma sorted_desc_head (l : list (pystr * Q)) top others :
  sorted_desc l = top :: others ->
  top ∈ l /\ Forall (fun e : pystr * Q => (e.2 <= top.2)%Q) l.
Proof.
  intros E. pose proof (sorted_desc_sorted l) as Hs.
  pose proof (sorted_desc_perm l) as Hp. rewrite E in Hs, Hp.
  split.
  - rewrite <- Hp. by left.
  - rewrite <- Hp. apply StronglySorted_inv in Hs as [_ Hall].
    constructor; [apply Qle_refl | done].
Qed.

Section RankingFacts.
Context {U : Unicode}.

Lemma scores_elem (text_lower : pystr) (e : pystr * Q) :
  e ∈ scores text_lower <->
  exists cfg, (e.1, cfg) ∈ LANGUAGE_PATTERNS
              /\ e.2 = lang_score cfg text_lower.
Proof.
  unfold scores. rewrite list_elem_of_fmap. split.
  - intros ([lang cfg] & -> & Hin). by exists cfg.
  - intros (cfg & Hin & Hs). exists (e.1, cfg). split; [|done].
    destruct e. simpl in *. by subst.
Qed.

(** What a detection with signal returns, in terms of the ranking. *)
Lemma detect_language_ranked (self : LanguageManager) (text : pystr) :
  let result := detect_language self text in
  match sorted_scores text with
  | (top_lang, top_score) :: _ =>
    if Qeq_bool top_score 0
    then result
         = {| detected_language := default_language self; confidence := 0%Q;
              alternative_language := None; alternative_confidence := None |}
    else detected_language result = top_lang
         /\ confidence result = Qmin (top_score / (1 # 2)) 1
         /\ (0 < top_score)%Q
  | [] =>
    result
    = {| detected_language := default_language self; confidence := 0%Q;
         alternative_language := None; alternative_confidence := None |}
  end.
Proof.
  pose proof (sorted_scores_nonneg text) as Hnn.
  unfold detect_language.
  destruct (sorted_scores text) as [|[top_lang top_score] others]; [done|].
  apply Forall_cons_1 in Hnn as [Htop _]. simpl in Htop.
  destruct (Qeq_bool top_score 0) eqn:Ez; [done|].
  apply Qeq_bool_neq in Ez.
  assert (0 < top_score)%Q as Hpos.
  { apply Qle_lteq in Htop as [Hlt|Heq]; [done|]. by symmetry in Heq. }
  destruct others as [|[alt_lang alt_score] rest]; [done|].
  by destruct (Qltb 0 alt_score && Qltb (7 # 10) (alt_score / top_score)).
Qed.

Lemma confidence_positive (score : Q) :
  (0 < score)%Q -> (0 < Qmin (score / (1 # 2)) 1)%Q.
Proof.
  intros H. apply Q.min_glb_lt; [|reflexivity].
  apply Qlt_shift_div_l; [reflexivity|]. by rewrite Qmult_0_l.
Qed.

(** X2: a detection with non-zero confidence names a profile of
    [LANGUAGE_PATTERNS] whose normalized score is the highest of all
    profiles. *)
Theorem detect_language_best (self : LanguageManager) (text : pystr) :
  let result := detect_language self text in
  ~ (confidence result == 0)%Q ->
  exists cfg,
    (detected_language result, cfg) ∈ LANGUAGE_PATTERNS
    /\ forall lang' cfg',
         (lang', cfg') ∈ LANGUAGE_PATTERNS ->
         (lang_score cfg' (lower text) <= lang_score cfg (lower text))%Q.
Proof.
  intros result Hconf. subst result.
  pose proof (detect_language_ranked self text) as Hr. simpl in Hr.
  destruct (sorted_scores text) as [|[top_lang top_score] others] eqn:E.
  { rewrite Hr in Hconf. by destruct Hconf. }
  destruct (Qeq_bool top_score 0).
  { rewrite Hr in Hconf. by destruct Hconf. }
  destruct Hr as (Hlang & _ & _). rewrite Hlang.
  apply sorted_desc_head in E as [Hin Hmax].
  apply scores_elem in Hin as (cfg & Hin & Hs). simpl in *.
  exists cfg. split; [done|]. intros lang' cfg' Hin'.
  rewrite Forall_forall in Hmax.
  specialize (Hmax (lang', lang_score cfg' (lower text))).
  rewrite <- Hs. apply Hmax. apply scores_elem. by exists cfg'.
Qed.

(** X3: the confidence is zero exactly when every profile scores zero;
    any signal for any profile gives a positive confidence. *)
Theorem detect_language_zero_confidence (self : LanguageManager)
  (text : pystr) :
  (confidence (detect_language self text) == 0)%Q
  <-> Forall (fun e : pystr * Q => (e.2 == 0)%Q) (scores (lower text)).
Proof.
  split.
  - intros Hzero.
    pose proof (detect_language_ranked self text) as Hr. simpl in Hr.
    destruct (sorted_scores text) as [|[top_lang top_score] others] eqn:E.
    { apply (f_equal length) in E. unfold sorted_scores in E.
      rewrite (Permutation_length (sorted_desc_perm _)) in E. discriminate E. }
    destruct (Qeq_bool top_score 0) eqn:Ez.
    + apply Qeq_bool_iff in Ez.
      apply sorted_desc_head in E as [_ Hmax]. simpl in Hmax.
      apply Forall_forall. intros e He.
      rewrite Forall_forall in Hmax. specialize (Hmax e He).
      apply Qle_antisym; [by rewrite <- Ez|].
      apply scores_elem in He as (cfg & _ & ->). apply lang_score_nonneg.
    + destruct Hr as (_ & Hc & Hpos). rewrite Hc in Hzero.
      apply confidence_positive in Hpos. rewrite Hzero in Hpos.
      by apply Qlt_irrefl in Hpos.
  - intros Hall.
    pose proof (detect_language_ranked self text) as Hr. simpl in Hr.
    destruct (sorted_scores text) as [|[top_lang top_score] others] eqn:E;
      [by rewrite Hr|].
    apply sorted_desc_head in E as [Hin _].
    rewrite Forall_forall in Hall. specialize (Hall _ Hin). simpl in Hall.
    apply Qeq_bool_iff in Hall. rewrite Hall in Hr. by rewrite Hr.
Qed.

(** X4: with the two profiles of [LANGUAGE_PATTERNS], Portuguese is
    detected when its score is positive and at least the English score
    (ties go to the profile declared first), English when its score is
    strictly higher. *)
Theorem detect_language_choice (self : LanguageManager) (text : pystr) :
  let portuguese := lang_score pt_BR (lower text) in
  let english := lang_score en (lower text) in
  let result := detect_language self text in
  ((0 < portuguese)%Q -> (english <= portuguese)%Q ->
   detected_language result = str "pt-BR")
  /\ ((portuguese < english)%Q -> detected_language result = str "en").
Proof.
  intros portuguese english result.
  pose proof (detect_language_ranked self text) as Hr. simpl in Hr.
  fold result in Hr.
  assert (sorted_scores text
          = if Qltb portuguese english
            then [(str "en", english); (str "pt-BR", portuguese)]
            else [(str "pt-BR", portuguese); (str "en", english)]) as E
    by reflexivity.
  rewrite E in Hr. clear E. split.
  - intros Hpos Hle. apply Qltb_ge in Hle. rewrite Hle in Hr.
    destruct (Qeq_bool portuguese 0) eqn:Ez; [|by destruct Hr].
    apply Qeq_bool_iff in Ez. rewrite Ez in Hpos. by apply Qlt_irrefl in Hpos.
  - intros Hlt. pose proof Hlt as Hb. apply Qltb_lt in Hb. rewrite Hb in Hr.
    destruct (Qeq_bool english 0) eqn:Ez; [|by destruct Hr].
    apply Qeq_bool_iff in Ez. rewrite Ez in Hlt.
    pose proof (lang_score_nonneg pt_BR (lower text)) as Hnn.
    fold portuguese in Hnn. by apply Qlt_not_le in Hlt.
Qed.

End RankingFacts.

Lemma detect_language_best_witness :
  exists cfg,
    (str "pt-BR", cfg) ∈ LANGUAGE_PATTERNS
    /\ forall lang' cfg',
         (lang', cfg') ∈ LANGUAGE_PATTERNS ->
         (lang_score (U := latin1) cfg'
            (lower (Unicode := latin1) (str "Qual a taxa do Pix?"))
          <= lang_score (U := latin1) cfg
               (lower (Unicode := latin1) (str "Qual a taxa do Pix?")))%Q.
Proof.
  apply (detect_language_best (U := latin1) LanguageManager.language_manager
           (str "Qual a taxa do Pix?")).
  vm_compute. discriminate.
Defined.

Lemma detect_language_choice_witness :
  detected_language
    (detect_language (U := latin1) LanguageManager.language_manager (str "a"))
  = str "pt-BR"
  /\ detected_language
       (detect_language (U := latin1) LanguageManager.language_manager
          (str "no"))
     = str "en".
Proof.
  split.
  - apply (detect_language_choice (U := latin1)
             LanguageManager.language_manager (str "a"));
      vm_compute; [reflexivity | discriminate].
  - apply (detect_language_choice (U := latin1)
             LanguageManager.language_manager (str "no")).
    vm_compute. reflexivity.
Defined.

(** ** LanguageManager: localized content, names, currency, greetings *)

Lemma str_eqb_eq (a b : pystr) : str_eqb a b = true <-> a = b.
Proof. unfold str_eqb. apply bool_decide_eq_true. Qed.

Lemma str_eqb_neq (a b : pystr) : str_eqb a b = false <-> a <> b.
Proof. unfold str_eqb. apply bool_decide_eq_false. Qed.

Lemma dict_get_Some {V} (k : pystr) (d : list (pystr * V)) (v : V) :
  dict_get k d = Some v -> (k, v) ∈ d.
Proof.
  induction d as [|[k' v'] d IH]; simpl; [done|].
  destruct (str_eqb k k') eqn:E.
  - intros [= ->]. apply str_eqb_eq in E as ->. by left.
  - intros H. right. by apply IH.
Qed.

Lemma navigate_text (key : pystr) (keys : list pystr) (s : pystr) :
  navigate key keys (Text s) = Text s.
Proof. by destruct keys. Qed.

Lemma split_on_aux_nonempty (sep : N) (s : pystr) :
  forall cur : pystr, split_on_aux sep s cur <> [].
Proof.
  induction s as [|c s IH]; intros cur; simpl; [done|].
  destruct (c =? sep); [done|]. apply IH.
Qed.

Lemma navigate_cases (key : pystr) (keys : list pystr) :
  forall content : Content,
    reaches keys content (navigate key keys content)
    \/ (exists n s,
          (n < length keys)%nat
          /\ reaches (take n keys) content (Text s)
          /\ navigate key keys content = Text s)
    \/ (exists n k d,
          keys !! n = Some k
          /\ reaches (take n keys) content (Table d)
          /\ dict_get k d = None
          /\ navigate key keys content = missing key).
Proof.
  induction keys as [|k keys IH]; intros content; simpl.
  - left. constructor.
  - destruct content as [s|d].
    + right. left. exists O, s. split; [lia|]. split; [constructor|done].
    + destruct (dict_get k d) as [v|] eqn:E; simpl.
      * destruct (IH v) as [Hfull|[(n & s & Hn & Hr & Hs)|(n & k' & d' & Hk & Hr & Hd & Hm)]].
        -- left. by eapply reaches_entry.
        -- right. left. exists (S n), s. split; [lia|].
           split; [|done]. simpl. by eapply reaches_entry.
        -- right. right. exists (S n), k', d'. split; [done|].
           split; [|done]. simpl. by eapply reaches_entry.
      * right. right. exists O, k, d. split; [done|].
        split; [constructor|]. split; [done|]. apply navigate_text.
Qed.

(** X5: [get_localized_content] follows the dot-separated segments of the
    key, of which there is at least one, from the table of the selected
    language, which is the English table when the language has none. It
    returns the value the whole path leads to; or the string met on the
    way, when a segment leads to a string before the path ends; or the
    text ["[Missing: <key>]"] built from the whole key, when a segment is
    not a key of the dictionary reached. *)
Theorem get_localized_content_result (self : LanguageManager) (key : pystr)
  (language : option pystr) :
  let selected := default (current_language self) language in
  let table := default localized_en (dict_get selected LOCALIZED_CONTENT) in
  let keys := split_on 46 key in
  let result := get_localized_content self key language in
  keys <> []
  /\ (reaches keys table result
      \/ (exists n s,
            (n < length keys)%nat
            /\ reaches (take n keys) table (Text s)
            /\ result = Text s)
      \/ (exists n k d,
            keys !! n = Some k
            /\ reaches (take n keys) table (Table d)
            /\ dict_get k d = None
            /\ result = Text (str "[Missing: " ++ key ++ str "]"))).
Proof.
  intros selected table keys result. split.
  - apply split_on_aux_nonempty.
  - apply navigate_cases.
Qed.

(** The three outcomes on the English table: a full path, a path that
    continues past a string, and a missing segment. *)
Example get_localized_content_paths :
  get_localized_content LanguageManager.language_manager
    (str "products.jim") None
  = Text (str "JIM - Instant payments meet AI magic in the US")
  /\ get_localized_content LanguageManager.language_manager
       (str "cta.more") (Some (str "fr"))
     = Text (str "Want to know more? Ask me about our products, fees, or anything else!")
  /\ get_localized_content LanguageManager.language_manager
       (str "products.pix") None
     = Text (str "[Missing: products.pix]").
Proof. repeat split; vm_compute; reflexivity. Qed.

(** X6: once the path of a key reaches a string, the remaining segments
    are ignored: a longer path gives the same string. *)
Theorem navigate_stops_at_text (key : pystr) (keys extra : list pystr)
  (s : pystr) :
  forall content : Content,
    navigate key keys content = Text s ->
    navigate key (keys ++ extra) content = Text s.
Proof.
  induction keys as [|k keys IH]; intros content; simpl.
  - intros ->. apply navigate_text.
  - destruct content as [s'|d]; [done|]. apply IH.
Qed.

Lemma navigate_stops_at_text_witness :
  navigate (str "cta.more") ([str "cta"] ++ [str "more"]) localized_en
  = Text (str "Want to know more? Ask me about our products, fees, or anything else!").
Proof.
  apply (navigate_stops_at_text (str "cta.more") [str "cta"] [str "more"]).
  vm_compute. reflexivity.
Defined.

Section NameFacts.
Context {U : Unicode}.

(** X7: [translate_product_name] returns the product as given unless its
    lower-cased form is one of the three product keys and the language is
    one of ['pt-BR'], ['es'], ['en']. *)
Theorem translate_product_name_changes (self : LanguageManager)
  (product : pystr) (to_language : option pystr) :
  translate_product_name self product to_language <> product ->
  lower product ∈ [str "infinitepay"; str "jim"; str "stratus"]
  /\ default (current_language self) to_language
     ∈ [str "pt-BR"; str "es"; str "en"].
Proof.
  unfold translate_product_name.
  set (language := default (current_language self) to_language).
  assert (forall names : list (pystr * pystr),
             fst <$> names = [str "pt-BR"; str "es"; str "en"] ->
             default product (dict_get language names) <> product ->
             language ∈ [str "pt-BR"; str "es"; str "en"]) as Hnames.
  { intros names Hkeys Hne.
    destruct (dict_get language names) as [v|] eqn:E; [|done].
    apply dict_get_Some in E.
    apply (list_elem_of_fmap_2 fst) in E. by rewrite Hkeys in E. }
  unfold translations. cbn [dict_get].
  destruct (str_eqb (lower product) (str "infinitepay")) eqn:E1.
  { apply str_eqb_eq in E1. intros H. split; [rewrite E1; by left|].
    eapply Hnames; [|exact H]. reflexivity. }
  destruct (str_eqb (lower product) (str "jim")) eqn:E2.
  { apply str_eqb_eq in E2. intros H.
    split; [rewrite E2; right; by left|].
    eapply Hnames; [|exact H]. reflexivity. }
  destruct (str_eqb (lower product) (str "stratus")) eqn:E3; [|done].
  apply str_eqb_eq in E3. intros H.
  split; [rewrite E3; right; right; by left|].
  eapply Hnames; [|exact H]. reflexivity.
Qed.

End NameFacts.

Lemma translate_product_name_changes_witness :
  lower (Unicode := latin1) (str "Jim")
    ∈ [str "infinitepay"; str "jim"; str "stratus"]
  /\ default (current_language LanguageManager.language_manager)
       (Some (str "es"))
     ∈ [str "pt-BR"; str "es"; str "en"].
Proof.
  apply (translate_product_name_changes (U := latin1)
           LanguageManager.language_manager (str "Jim") (Some (str "es"))).
  vm_compute. discriminate.
Defined.

Lemma swap_separators_exchange (s : pystr) :
  88 ∉ s ->
  swap_separators s
  = List.map (fun c => if c =? 44 then 46 else if c =? 46 then 44 else c) s.
Proof.
  unfold swap_separators, replace. rewrite !map_map.
  induction s as [|c s IH]; intros Hx; simpl; [done|].
  apply not_elem_of_cons in Hx as [Hc Hs]. rewrite IH by done. f_equal.
  destruct (N.eqb_spec c 44) as [->|H44]; [done|].
  destruct (N.eqb_spec c 46) as [->|H46]; [done|].
  destruct (N.eqb_spec c 88) as [->|H88]; done.
Qed.

Lemma swap_separators_prefix (prefix s : pystr) :
  Forall (fun c => c <> 88 /\ c <> 44 /\ c <> 46) prefix ->
  88 ∉ s ->
  swap_separators (prefix ++ s)
  = prefix
      ++ List.map (fun c => if c =? 44 then 46 else if c =? 46 then 44 else c)
           s.
Proof.
  intros Hp Hs. rewrite swap_separators_exchange.
  - rewrite map_app. f_equal.
    induction Hp as [|c prefix (H88 & H44 & H46) _ IH]; [done|].
    simpl. rewrite IH.
    destruct (N.eqb_spec c 44); [done|]. by destruct (N.eqb_spec c 46).
  - rewrite elem_of_app. intros [Hin|Hin]; [|done].
    rewrite Forall_forall in Hp. by destruct (Hp _ Hin).
Qed.

Section CurrencyFacts.
Context {F : Formatting}.

(** Every language selects a table with the keys ['BRL'] and ['USD']. *)
Lemma formatter_table (language : pystr) :
  exists f g : Q -> pystr,
    default (default [] (dict_get (str "en") formatters))
      (dict_get language formatters)
    = [(str "BRL", f); (str "USD", g)].
Proof.
  unfold formatters. cbn [dict_get].
  destruct (str_eqb language (str "pt-BR")); [do 2 eexists; reflexivity|].
  destruct (str_eqb language (str "es")); [do 2 eexists; reflexivity|].
  destruct (str_eqb language (str "en")); do 2 eexists; reflexivity.
Qed.

(** X8: for a currency code other than ['BRL'] and ['USD'],
    [format_currency] returns the code, a space and the formatted amount in
    every language; the separators are not exchanged, in ['pt-BR'] and
    ['es'] either. *)
Theorem format_currency_other (self : LanguageManager) (amount : Q)
  (currency : pystr) (language : option pystr) :
  currency <> str "BRL" -> currency <> str "USD" ->
  format_currency self amount currency language
  = currency ++ str " " ++ format_2f amount.
Proof.
  intros Hb Hu. apply str_eqb_neq in Hb, Hu.
  unfold format_currency. cbv zeta.
  destruct (formatter_table (default (current_language self) language))
    as (f & g & ->).
  cbn [dict_get]. by rewrite Hb, Hu.
Qed.

Lemma formatter_table_swapped (language : pystr) :
  language ∈ [str "pt-BR"; str "es"] ->
  default (default [] (dict_get (str "en") formatters))
    (dict_get language formatters)
  = [ (str "BRL", fun x => swap_separators (str "R$ " ++ format_2f x));
      (str "USD", fun x => swap_separators (str "US$ " ++ format_2f x)) ].
Proof.
  intros H. apply elem_of_cons in H as [->|H]; [reflexivity|].
  apply list_elem_of_singleton in H as ->. reflexivity.
Qed.

(** X9: in ['pt-BR'] and ['es'], when the formatted amount has no letter
    [X], the result for ['BRL'] and ['USD'] is the prefix ["R$ "] or
    ["US$ "] followed by the formatted amount with every comma turned into
    a point and every point into a comma. *)
Theorem format_currency_exchange (self : LanguageManager) (amount : Q)
  (language : pystr) :
  language ∈ [str "pt-BR"; str "es"] ->
  88 ∉ format_2f amount ->
  let exchanged :=
    List.map (fun c => if c =? 44 then 46 else if c =? 46 then 44 else c)
      (format_2f amount) in
  format_currency self amount (str "BRL") (Some language)
  = str "R$ " ++ exchanged
  /\ format_currency self amount (str "USD") (Some language)
     = str "US$ " ++ exchanged.
Proof.
  intros Hl Hx exchanged. subst exchanged.
  unfold format_currency. cbv zeta.
  change (default (current_language self) (Some language)) with language.
  rewrite (formatter_table_swapped language Hl).
  split.
  - change (dict_get (str "BRL") _)
      with (Some (fun x => swap_separators (str "R$ " ++ format_2f x))).
    cbn [default]. apply swap_separators_prefix; [|done].
    vm_compute. repeat (constructor; [repeat split; discriminate|]).
    constructor.
  - change (dict_get (str "USD") _)
      with (Some (fun x => swap_separators (str "US$ " ++ format_2f x))).
    cbn [default]. apply swap_separators_prefix; [|done].
    vm_compute. repeat (constructor; [repeat split; discriminate|]).
    constructor.
Qed.

End CurrencyFacts.

Lemma format_currency_other_witness :
  format_currency (F := fixed_format) LanguageManager.language_manager 5
    (str "EUR") (Some (str "pt-BR"))
  = str "EUR 1,234.50".
Proof.
  apply (format_currency_other (F := fixed_format)
           LanguageManager.language_manager 5 (str "EUR")
           (Some (str "pt-BR")));
    vm_compute; discriminate.
Defined.

Lemma format_currency_exchange_witness :
  format_currency (F := fixed_format) LanguageManager.language_manager 5
    (str "BRL") (Some (str "pt-BR"))
  = str "R$ 1.234,50"
  /\ format_currency (F := fixed_format) LanguageManager.language_manager 5
       (str "USD") (Some (str "pt-BR"))
     = str "US$ 1.234,50".
Proof.
  apply (format_currency_exchange (F := fixed_format)
           LanguageManager.language_manager 5 (str "pt-BR")).
  - by left.
  - apply (bool_decide_unpack _). vm_compute. exact I.
Defined.

(** ** CloudWalkKnowledgeBase.search: the [where] clause *)

(** X10: a filter of [search] constrains its metadata key exactly when it
    is a non-empty string; [None] and the empty string place no
    constraint, and the engine receives no [where] clause at all exactly
    when all three filters are of that kind. *)
Theorem where_clause_constraints (a : SearchArgs) :
  let constraint (key : pystr) :=
    match where_clause a with
    | Some w => dict_get key w
    | None => None
    end in
  constraint (str "language")
  = (if truthy (filter_language a) then filter_language a else None)
  /\ constraint (str "product")
     = (if truthy (filter_product a) then filter_product a else None)
  /\ constraint (str "category")
     = (if truthy (filter_category a) then filter_category a else None)
  /\ (where_clause a = None
      <-> truthy (filter_language a) = false
          /\ truthy (filter_product a) = false
          /\ truthy (filter_category a) = false).
Proof.
  destruct a as [q n fl fp fc]. unfold where_clause. simpl.
  destruct fl as [[|c1 t1]|], fp as [[|c2 t2]|], fc as [[|c3 t3]|];
    simpl; repeat split; try done; intros; try discriminate;
    intuition discriminate.
Qed.

(** X11: the search of a turn reaches the engine with a language
    constraint exactly when the context's language is neither ['en'] nor
    the empty string, with a product constraint exactly when the current
    product is a non-empty string, and never with a category constraint. *)
Theorem search_request_constraints (user_input : pystr)
  (context : ConversationContext) :
  let constraint (key : pystr) :=
    match where_clause (search_request user_input context) with
    | Some w => dict_get key w
    | None => None
    end in
  constraint (str "language")
  = (if decide (ctx_language context = str "en" \/ ctx_language context = [])
     then None else Some (ctx_language context))
  /\ constraint (str "product")
     = (if truthy (current_product context) then current_product context
        else None)
  /\ constraint (str "category") = None.
Proof.
  unfold search_request, where_clause, str_eqb.
  cbn [filter_language filter_product filter_category].
  case_bool_decide as Hen.
  - rewrite decide_True by tauto.
    destruct (current_product context) as [[|c2 t2]|]; simpl; done.
  - destruct (ctx_language context) as [|c t] eqn:E.
    + rewrite decide_True by tauto.
      destruct (current_product context) as [[|c2 t2]|]; simpl; done.
    + rewrite decide_False by (intros [H|H]; [done|discriminate H]).
      destruct (current_product context) as [[|c2 t2]|]; simpl; done.
Qed.

(** ** CloudWalkKnowledgeBase: loading and adding documents *)

Section StoreFacts.
Context {C : Collaborators}.

Lemma collection_add_fold (documents : list KnowledgeDocument)
  (coll : Collection) :
  collection_add (List.map KnowledgeBase.id documents)
    (List.map KnowledgeBase.content documents)
    (List.map document_metadata documents) coll
  = fold_left collection_add_one
      (List.map
         (fun doc =>
            (KnowledgeBase.id doc,
             {| entry_document := KnowledgeBase.content doc;
                entry_metadata := document_metadata doc |}))
         documents)
      coll.
Proof.
  unfold collection_add. f_equal.
  induction documents as [|doc documents IH]; simpl; [done|]. by rewrite IH.
Qed.

Lemma add_documents_collection (self : CloudWalkKnowledgeBase)
  (documents : list KnowledgeDocument) :
  collection (_add_documents self documents)
  = fold_left collection_add_one
      (List.map
         (fun doc =>
            (KnowledgeBase.id doc,
             {| entry_document := KnowledgeBase.content doc;
                entry_metadata := document_metadata doc |}))
         documents)
      (collection self).
Proof.
  destruct documents as [|doc documents]; [done|].
  unfold _add_documents. cbn [collection]. apply collection_add_fold.
Qed.

Lemma collection_add_one_keeps (coll : Collection) (e : pystr * Entry)
  (k : pystr) (x : Entry) :
  coll !! k = Some x -> collection_add_one coll e !! k = Some x.
Proof.
  intros Hk. unfold collection_add_one.
  destruct (coll !! e.1) eqn:E; [done|].
  rewrite lookup_insert_ne; [done|]. intros Heq. rewrite Heq in E. congruence.
Qed.

Lemma fold_add_keeps (es : list (pystr * Entry)) (k : pystr) (x : Entry) :
  forall coll : Collection,
    coll !! k = Some x ->
    fold_left collection_add_one es coll !! k = Some x.
Proof.
  induction es as [|e es IH]; intros coll Hk; simpl; [done|].
  apply IH. by apply collection_add_one_keeps.
Qed.

Lemma fold_add_covers (es : list (pystr * Entry)) (e : pystr * Entry) :
  forall coll : Collection,
    e ∈ es -> is_Some (fold_left collection_add_one es coll !! e.1).
Proof.
  induction es as [|e' es IH]; intros coll Hin; simpl.
  - by apply elem_of_nil in Hin.
  - apply elem_of_cons in Hin as [->|Hin]; [|by apply IH].
    destruct (collection_add_one_present coll e') as [x Hx].
    exists x. by apply fold_add_keeps.
Qed.

Lemma initialize_collection (self : CloudWalkKnowledgeBase)
  (clock : nat -> datetime) :
  collection (_initialize_core_knowledge self clock)
  = collection (_add_documents self (new_core_documents self clock)).
Proof.
  unfold _initialize_core_knowledge.
  by destruct (new_core_documents self clock).
Qed.

Lemma core_document_ids (clock clock' : nat -> datetime) :
  KnowledgeBase.id <$> core_documents clock
  = KnowledgeBase.id <$> core_documents clock'.
Proof. reflexivity. Qed.

Lemma initialize_covers (self : CloudWalkKnowledgeBase)
  (clock : nat -> datetime) (doc : KnowledgeDocument) :
  doc ∈ core_documents clock ->
  is_Some (collection (_initialize_core_knowledge self clock)
             !! KnowledgeBase.id doc).
Proof.
  intros Hin. rewrite initialize_collection, add_documents_collection.
  destruct (decide (KnowledgeBase.id doc ∈ dom (collection self)))
    as [Hold|Hnew].
  - apply elem_of_dom in Hold as [x Hx]. exists x. by apply fold_add_keeps.
  - apply (fold_add_covers _
             (KnowledgeBase.id doc,
              {| entry_document := KnowledgeBase.content doc;
                 entry_metadata := document_metadata doc |})).
    apply (list_elem_of_fmap_2
             (fun doc =>
                (KnowledgeBase.id doc,
                 {| entry_document := KnowledgeBase.content doc;
                    entry_metadata := document_metadata doc |}))).
    unfold new_core_documents. by apply list_elem_of_filter.
Qed.

(** X12: [_initialize_core_knowledge] leaves every stored entry as it is,
    makes the id of each core document present, and a second run finds no
    new document and returns the store unchanged. *)
Theorem initialize_core_knowledge_once (self : CloudWalkKnowledgeBase)
  (clock clock' : nat -> datetime) :
  let loaded := _initialize_core_knowledge self clock in
  (forall k x, collection self !! k = Some x -> collection loaded !! k = Some x)
  /\ (forall doc, doc ∈ core_documents clock ->
                  is_Some (collection loaded !! KnowledgeBase.id doc))
  /\ new_core_documents loaded clock' = []
  /\ _initialize_core_knowledge loaded clock' = loaded.
Proof.
  intros loaded.
  assert (new_core_documents loaded clock' = []) as Hnone.
  { unfold new_core_documents.
    destruct (filter _ (core_documents clock')) as [|doc rest] eqn:E; [done|].
    assert (doc ∈ filter
                    (fun doc => KnowledgeBase.id doc ∉ dom (collection loaded))
                    (core_documents clock')) as Hin
      by (rewrite E; by left).
    apply list_elem_of_filter in Hin as [Hfresh Hin]. exfalso. apply Hfresh.
    apply (list_elem_of_fmap_2 KnowledgeBase.id) in Hin.
    rewrite (core_document_ids clock' clock) in Hin.
    apply list_elem_of_fmap in Hin as (doc' & -> & Hin').
    apply elem_of_dom. by apply initialize_covers. }
  split; [|split; [|split]].
  - intros k x Hk. unfold loaded.
    rewrite initialize_collection, add_documents_collection.
    by apply fold_add_keeps.
  - intros doc Hin. by apply initialize_covers.
  - exact Hnone.
  - unfold _initialize_core_knowledge at 1. by rewrite Hnone.
Qed.

(** X13: [add_custom_knowledge] changes no entry stored under another id
    and none stored under the new id; when the id is new it stores the
    content with the metadata of the document: title, category, language,
    the tags joined by commas, and the empty string for an absent
    subcategory or product. *)
Theorem add_custom_knowledge_store (self : CloudWalkKnowledgeBase)
  (title content category : pystr) (tags : list pystr) (language : pystr)
  (kwargs : Kwargs) (now : datetime) :
  let out :=
    add_custom_knowledge self title content category tags language kwargs
      now in
  (forall k x, collection self !! k = Some x -> collection out.2 !! k = Some x)
  /\ (forall k, k <> out.1 -> collection out.2 !! k = collection self !! k)
  /\ (collection self !! out.1 = None ->
      collection out.2 !! out.1
      = Some {| entry_document := content;
                entry_metadata :=
                  {| md_title := title;
                     md_category := category;
                     md_subcategory := or_else (kw_subcategory kwargs) [];
                     md_tags := join (str ",") tags;
                     md_language := language;
                     md_product := or_else (kw_product kwargs) [];
                     md_last_updated :=
                       default now (kw_last_updated kwargs) |} |}).
Proof.
  unfold add_custom_knowledge. cbn [fst snd].
  rewrite add_documents_single. cbn [collection KnowledgeBase.id].
  set (doc_id := _generate_id (title ++ str "_" ++ content)).
  split; [|split].
  - intros k x Hk. by apply collection_add_one_keeps.
  - intros k Hne. unfold collection_add_one. cbn [fst snd].
    destruct (collection self !! doc_id); [done|].
    by rewrite lookup_insert_ne.
  - intros Hnew. unfold collection_add_one. cbn [fst snd]. rewrite Hnew.
    by rewrite lookup_insert_eq.
Qed.

End StoreFacts.

Lemma add_custom_knowledge_store_witness :
  collection
    (add_custom_knowledge (C := idle) empty_kb (str "Pix") (str "0% fee")
       (str "products") [str "pix"; str "fee"] (str "en") no_kwargs 1).2
    !! str "Pix_0% fee"
  = Some {| entry_document := str "0% fee";
            entry_metadata :=
              {| md_title := str "Pix"; md_category := str "products";
                 md_subcategory := []; md_tags := str "pix,fee";
                 md_language := str "en"; md_product := [];
                 md_last_updated := 1 |} |}.
Proof.
  apply (add_custom_knowledge_store (C := idle) empty_kb (str "Pix")
           (str "0% fee") (str "products") [str "pix"; str "fee"] (str "en")
           no_kwargs 1).
  reflexivity.
Defined.

(** ** CloudWalkKnowledgeBase.get_product_info *)

Section ProductFacts.
Context {U : Unicode} {C : Collaborators}.

Lemma fold_bucket_other (results : list SearchHit) :
  forall info : ProductInfo,
    other (fold_left bucket results info)
    = other info
        ++ List.map hit_content
             (List.filter
                (fun h =>
                   let subcategory := md_subcategory (hit_metadata h) in
                   let title_lower := lower (md_title (hit_metadata h)) in
                   negb (contains (str "overview") subcategory
                         || contains (str "overview") title_lower)
                   && negb (contains (str "feature") subcategory
                            || contains (str "feature") title_lower)
                   && negb (contains (str "fee") subcategory
                            || contains (str "pricing") subcategory
                            || contains (str "taxa") subcategory))
                results).
Proof.
  induction results as [|h results IH]; intros info; simpl.
  - by rewrite app_nil_r.
  - rewrite IH. unfold bucket. cbv zeta.
    destruct (contains (str "overview") _ || contains (str "overview") _);
      [done|].
    destruct (contains (str "feature") _ || contains (str "feature") _);
      [done|].
    destruct (contains (str "fee") _ || contains (str "pricing") _
              || contains (str "taxa") _); [done|].
    simpl. by rewrite <- app_assoc.
Qed.

Lemma fold_bucket_overview (results : list SearchHit) :
  forall info : ProductInfo,
    Forall
      (fun h =>
         contains (str "overview") (md_subcategory (hit_metadata h))
         || contains (str "overview") (lower (md_title (hit_metadata h)))
         = false)
      results ->
    overview (fold_left bucket results info) = overview info.
Proof.
  induction results as [|h results IH]; intros info Hall; simpl; [done|].
  apply Forall_cons_1 in Hall as [Hh Hall]. rewrite IH by done.
  unfold bucket. cbv zeta. rewrite Hh.
  destruct (contains (str "feature") _ || contains (str "feature") _);
    [done|].
  by destruct (contains (str "fee") _ || contains (str "pricing") _
               || contains (str "taxa") _).
Qed.

Lemma fold_bucket_pricing (results : list SearchHit) :
  forall info : ProductInfo,
    Forall
      (fun h =>
         let subcategory := md_subcategory (hit_metadata h) in
         let title_lower := lower (md_title (hit_metadata h)) in
         contains (str "overview") subcategory
         || contains (str "overview") title_lower
         || (contains (str "feature") subcategory
             || contains (str "feature") title_lower)
         || negb (contains (str "fee") subcategory
                  || contains (str "pricing") subcategory
                  || contains (str "taxa") subcategory)
         = true)
      results ->
    pricing (fold_left bucket results info) = pricing info.
Proof.
  induction results as [|h results IH]; intros info Hall; simpl; [done|].
  apply Forall_cons_1 in Hall as [Hh Hall]. rewrite IH by done.
  unfold bucket. cbv zeta in Hh |- *.
  destruct (contains (str "overview") _ || contains (str "overview") _);
    [done|].
  destruct (contains (str "feature") _ || contains (str "feature") _);
    [done|].
  destruct (contains (str "fee") _ || contains (str "pricing") _
            || contains (str "taxa") _); [discriminate Hh | done].
Qed.

(** X14: the field [other] of [get_product_info] holds, in the order of the
    search results, the contents of the hits that fall in none of the three
    named buckets. A hit counts as overview or feature through its
    subcategory or its lower-cased title, as pricing through its
    subcategory only. *)
Theorem get_product_info_other (self : CloudWalkKnowledgeBase)
  (product language : pystr) :
  other (get_product_info self product language)
  = List.map hit_content
      (List.filter
         (fun h =>
            let subcategory := md_subcategory (hit_metadata h) in
            let title_lower := lower (md_title (hit_metadata h)) in
            negb (contains (str "overview") subcategory
                  || contains (str "overview") title_lower)
            && negb (contains (str "feature") subcategory
                     || contains (str "feature") title_lower)
            && negb (contains (str "fee") subcategory
                     || contains (str "pricing") subcategory
                     || contains (str "taxa") subcategory))
         (search self (product_request product language))).
Proof. unfold get_product_info. cbv zeta. by rewrite fold_bucket_other. Qed.

(** X15: the buckets keep the last matching hit. When a hit counts as
    overview and no later hit does, its content is the field [overview];
    when a hit counts as pricing (and neither as overview nor as feature)
    and no later hit is stored as pricing, its content is the field
    [pricing]. *)
Theorem get_product_info_last_wins (self : CloudWalkKnowledgeBase)
  (product language : pystr) (before after : list SearchHit) (h : SearchHit) :
  let is_overview (h : SearchHit) :=
    contains (str "overview") (md_subcategory (hit_metadata h))
    || contains (str "overview") (lower (md_title (hit_metadata h))) in
  let is_feature (h : SearchHit) :=
    contains (str "feature") (md_subcategory (hit_metadata h))
    || contains (str "feature") (lower (md_title (hit_metadata h))) in
  let is_pricing (h : SearchHit) :=
    contains (str "fee") (md_subcategory (hit_metadata h))
    || contains (str "pricing") (md_subcategory (hit_metadata h))
    || contains (str "taxa") (md_subcategory (hit_metadata h)) in
  search self (product_request product language) = before ++ h :: after ->
  (is_overview h = true ->
   Forall (fun h' => is_overview h' = false) after ->
   overview (get_product_info self product language) = hit_content h)
  /\ (is_overview h = false -> is_feature h = false -> is_pricing h = true ->
      Forall
        (fun h' => is_overview h' || is_feature h' || negb (is_pricing h')
                   = true)
        after ->
      pricing (get_product_info self product language) = hit_content h).
Proof.
  intros is_overview is_feature is_pricing Hres.
  unfold get_product_info. cbv zeta. rewrite Hres, fold_left_app. simpl.
  split.
  - intros Ho Hafter. rewrite fold_bucket_overview by exact Hafter.
    unfold bucket. cbv zeta. unfold is_overview in Ho. by rewrite Ho.
  - intros Ho Hf Hp Hafter. rewrite fold_bucket_pricing by exact Hafter.
    unfold bucket. cbv zeta.
    unfold is_overview in Ho. unfold is_feature in Hf.
    unfold is_pricing in Hp. by rewrite Ho, Hf, Hp.
Qed.

End ProductFacts.

Lemma get_product_info_last_wins_witness :
  overview
    (get_product_info (U := latin1) (C := jim_catalogue) empty_kb (str "JIM")
       (str "en"))
  = str "instant payments".
Proof.
  apply (get_product_info_last_wins (U := latin1) (C := jim_catalogue)
           empty_kb (str "JIM") (str "en") []
           [ hit (str "JIM Fees") (str "costs") (str "1.99% per transaction");
             hit (str "JIM Rates") (str "fees") (str "no monthly charges") ]
           (hit (str "JIM Overview") (str "jim") (str "instant payments"))).
  - reflexivity.
  - vm_compute. reflexivity.
  - repeat constructor.
Defined.

(** A document titled ["JIM Fees"] whose subcategory is [costs] is not
    stored as pricing: it goes to [other]. *)
Example get_product_info_jim :
  let info :=
    get_product_info (U := latin1) (C := jim_catalogue) empty_kb (str "JIM")
      (str "en") in
  overview info = str "instant payments"
  /\ features info = []
  /\ pricing info = str "no monthly charges"
  /\ other info = [str "1.99% per transaction"].
Proof. vm_compute. done. Qed.

(** ** CloudWalkChatbot: intents, turns and sessions *)

Section SessionFacts.
Context {U : Unicode} {C : Collaborators}.

(** X16: [detect_intent] returns either [[GENERAL_CHAT]] alone or a
    non-empty selection of [GREETING], [PRODUCT_INQUIRY],
    [PRICING_QUESTION] in that order; the six other intents of the
    enumeration are never returned. *)
Theorem detect_intent_range (user_input : pystr) :
  detect_intent user_input = [GENERAL_CHAT]
  \/ (detect_intent user_input <> []
      /\ detect_intent user_input
           `sublist_of` [GREETING; PRODUCT_INQUIRY; PRICING_QUESTION]).
Proof.
  unfold detect_intent.
  set (f := fun patterns : list regex =>
              existsb (fun pattern => Re.search pattern (lower user_input))
                patterns).
  pose proof (detected_sublist f _initialize_intent_patterns) as Hsub.
  destruct (flat_map _ _initialize_intent_patterns) as [|intent rest];
    [by left|].
  right. split; [done|]. exact Hsub.
Qed.

Lemma generate_response_unconfigured (self : CloudWalkChatbot)
  (user_input : pystr) (context : ConversationContext) (now : datetime) :
  llm self = None ->
  generate_response self user_input context now
  = (not_configured, context, []).
Proof. intros H. unfold generate_response. by rewrite H. Qed.

(** X17: a chatbot without model answers every input with the
    configuration message, asks nothing of its collaborators and leaves the
    context as it is, over a whole session. *)
Theorem unconfigured_session (self : CloudWalkChatbot)
  (inputs : list (pystr * datetime)) (context : ConversationContext) :
  llm self = None ->
  turns self inputs context = context
  /\ Forall
       (fun input =>
          generate_response self input.1 context input.2
          = (not_configured, context, []))
       inputs.
Proof.
  intros H. split.
  - unfold turns. induction inputs as [|input inputs IH]; simpl; [done|].
    by rewrite generate_response_unconfigured.
  - apply Forall_forall. intros input _.
    by apply generate_response_unconfigured.
Qed.

(** The two outcomes of a turn of a configured chatbot. *)
Lemma generate_response_outcome (self : CloudWalkChatbot)
  (user_input : pystr) (context : ConversationContext) (now : datetime)
  (invoke : list Message -> Invocation) :
  llm self = Some invoke ->
  let context' := update_language self user_input context in
  let messages := build_messages self user_input context' in
  let out := generate_response self user_input context now in
  match invoke messages with
  | Returned content =>
    out = (strip content, record_turn context' user_input (strip content) now,
           [Searched (search_request user_input context'); Invoked messages])
  | Raised e =>
    out = (apology, context',
           [Searched (search_request user_input context'); Invoked messages;
            LoggedError e])
  end.
Proof.
  intros Hllm. cbv zeta. unfold generate_response. rewrite Hllm.
  by destruct (invoke _).
Qed.

(** X18: when the model returns, the response is the reply without its
    surrounding whitespace, the history grows by exactly the user entry
    and the assistant entry with that response, [last_interaction] is the
    instant of the turn, and one search and one invocation were made. *)
Theorem generate_response_success (self : CloudWalkChatbot)
  (user_input : pystr) (context : ConversationContext) (now : datetime)
  (invoke : list Message -> Invocation) (content : pystr) :
  llm self = Some invoke ->
  invoke (build_messages self user_input
            (update_language self user_input context)) = Returned content ->
  let out := generate_response self user_input context now in
  out.1.1 = strip content
  /\ conversation_history out.1.2
     = conversation_history context
         ++ [ {| role := str "user"; msg_content := user_input |};
              {| role := str "assistant"; msg_content := strip content |} ]
  /\ last_interaction out.1.2 = now
  /\ length (searches out.2) = 1%nat
  /\ length (invocations out.2) = 1%nat.
Proof.
  intros Hllm Hret.
  pose proof (generate_response_outcome self user_input context now invoke
                Hllm) as Hout.
  cbv zeta in Hout. rewrite Hret in Hout. cbv zeta. rewrite Hout.
  cbn [fst snd record_turn conversation_history last_interaction].
  rewrite update_language_history, <- app_assoc. done.
Qed.

Lemma generate_response_step (self : CloudWalkChatbot)
  (user_input : pystr) (context : ConversationContext) (now : datetime) :
  let out := generate_response self user_input context now in
  (conversation_history out.1.2 = conversation_history context
   \/ exists reply,
        conversation_history out.1.2
        = conversation_history context
            ++ [ {| role := str "user"; msg_content := user_input |};
                 {| role := str "assistant"; msg_content := reply |} ])
  /\ session_id out.1.2 = session_id context
  /\ user_profile out.1.2 = user_profile context
  /\ current_product out.1.2 = current_product context
  /\ detected_intents out.1.2 = detected_intents context
  /\ ctx_metadata out.1.2 = ctx_metadata context
  /\ created_at out.1.2 = created_at context.
Proof.
  cbv zeta. destruct (llm self) as [invoke|] eqn:Hllm.
  - pose proof (generate_response_outcome self user_input context now invoke
                  Hllm) as Hout.
    cbv zeta in Hout.
    pose proof (update_language_frame self user_input context) as Hframe.
    pose proof (update_language_history self user_input context) as Hhist.
    destruct (invoke _) as [content|e]; rewrite Hout; cbn [fst snd].
    + split.
      * right. exists (strip content).
        cbn [record_turn conversation_history].
        by rewrite Hhist, <- app_assoc.
      * rewrite Hframe. done.
    + split; [by left|]. rewrite Hframe. done.
  - rewrite generate_response_unconfigured by done. cbn [fst snd].
    split; [by left|done].
Qed.

(** X19: over a whole session the engine changes only the language, the
    history and [last_interaction] of the context: the session id, the user
    profile, the current product, the detected intents, the metadata and
    the creation instant stay as they were. *)
Theorem session_frame (self : CloudWalkChatbot)
  (inputs : list (pystr * datetime)) (context : ConversationContext) :
  let final := turns self inputs context in
  session_id final = session_id context
  /\ user_profile final = user_profile context
  /\ current_product final = current_product context
  /\ detected_intents final = detected_intents context
  /\ ctx_metadata final = ctx_metadata context
  /\ created_at final = created_at context.
Proof.
  unfold turns. revert context.
  induction inputs as [|input inputs IH]; intros context; simpl; [done|].
  destruct (generate_response_step self input.1 context input.2)
    as (_ & H1 & H2 & H3 & H4 & H5 & H6).
  destruct (IH (generate_response self input.1 context input.2).1.2)
    as (I1 & I2 & I3 & I4 & I5 & I6).
  rewrite I1, I2, I3, I4, I5, I6. done.
Qed.

(** X20: over a whole session the stored history is only appended to: the
    final history is the initial one followed by complete pairs, a user
    entry then an assistant entry, at most one pair per turn. *)
Theorem session_history (self : CloudWalkChatbot)
  (inputs : list (pystr * datetime)) (context : ConversationContext) :
  exists (added : list HistoryEntry) (pairs : nat),
    conversation_history (turns self inputs context)
    = conversation_history context ++ added
    /\ (pairs <= length inputs)%nat
    /\ role <$> added
       = mjoin (replicate pairs [str "user"; str "assistant"]).
Proof.
  unfold turns. revert context.
  induction inputs as [|input inputs IH]; intros context; simpl.
  - exists [], O. by rewrite app_nil_r.
  - destruct (IH (generate_response self input.1 context input.2).1.2)
      as (added & pairs & Hh & Hn & Hr).
    destruct (generate_response_step self input.1 context input.2)
      as ([Hsame|[reply Hgrow]] & _).
    + exists added, pairs. rewrite Hh, Hsame. split; [done|]. split; [lia|done].
    + exists ([ {| role := str "user"; msg_content := input.1 |};
               {| role := str "assistant"; msg_content := reply |} ] ++ added),
             (S pairs).
      rewrite Hh, Hgrow, <- app_assoc. split; [done|]. split; [lia|].
      rewrite fmap_app, Hr. reflexivity.
Qed.

End SessionFacts.

Lemma unconfigured_session_witness :
  turns (U := latin1) (C := idle) unconfigured_bot
    [(str "Oi", 1); (str "taxa?", 2)] long_context
  = long_context.
Proof.
  apply (unconfigured_session (U := latin1) (C := idle) unconfigured_bot
           [(str "Oi", 1); (str "taxa?", 2)] long_context).
  reflexivity.
Defined.

Lemma generate_response_success_witness :
  let out :=
    generate_response (U := latin1) (C := idle) echo_bot (str "hi")
      fresh_context 7 in
  out.1.1 = str "ok"
  /\ conversation_history out.1.2
     = [ {| role := str "user"; msg_content := str "hi" |};
         {| role := str "assistant"; msg_content := str "ok" |} ]
  /\ last_interaction out.1.2 = 7
  /\ length (searches out.2) = 1%nat
  /\ length (invocations out.2) = 1%nat.
Proof.
  apply (generate_response_success (U := latin1) (C := idle) echo_bot
           (str "hi") fresh_context 7 (fun _ => Returned (str " ok "))
           (str " ok "));
    reflexivity.
Defined.

(** A session in which the second of three turns fails: two pairs are
    stored and the failed input leaves no trace. *)
Example session_with_failure :
  role <$> conversation_history
             (turns (U := latin1) (C := idle) moody_bot
                [(str "hi", 1); (str "boom", 2); (str "pix", 3)]
                fresh_context)
  = [str "user"; str "assistant"; str "user"; str "assistant"]
  /\ msg_content <$> conversation_history
                       (turns (U := latin1) (C := idle) moody_bot
                          [(str "hi", 1); (str "boom", 2); (str "pix", 3)]
                          fresh_context)
     = [str "hi"; str "fine"; str "pix"; str "fine"].
Proof. split; vm_compute; reflexivity. Qed.

(** ** The session language *)

Lemma confidence_threshold (top_score : Q) :
  Qltb (6 # 10) (Qmin (top_score / (1 # 2)) 1) = Qltb (3 # 10) top_score.
Proof.
  apply eq_true_iff_eq. rewrite !Qltb_lt, Q.min_glb_lt_iff.
  assert (top_score / (1 # 2) == top_score * 2)%Q as -> by (field; discriminate).
  split; [intros [H _]; lra | intros H; split; lra].
Qed.

Section LanguageFacts.
Context {U : Unicode} {C : Collaborators}.

Lemma detected_language_profile (self : LanguageManager) (text : pystr) :
  ~ (confidence (detect_language self text) == 0)%Q ->
  detected_language (detect_language self text) ∈ profile_keys.
Proof.
  intros Hconf.
  pose proof (detect_language_ranked self text) as Hr. simpl in Hr.
  destruct (sorted_scores text) as [|[top_lang top_score] others] eqn:E.
  { rewrite Hr in Hconf. by destruct Hconf. }
  destruct (Qeq_bool top_score 0).
  { rewrite Hr in Hconf. by destruct Hconf. }
  destruct Hr as (-> & _ & _).
  apply sorted_desc_head in E as [Hin _].
  apply scores_elem in Hin as (cfg & Hin & _). simpl in Hin.
  unfold profile_keys. apply list_elem_of_In, in_map_iff.
  exists (top_lang, cfg). split; [done|]. by apply list_elem_of_In.
Qed.

Lemma update_language_range (self : CloudWalkChatbot) (user_input : pystr)
  (context : ConversationContext) :
  ctx_language (update_language self user_input context) = ctx_language context
  \/ ctx_language (update_language self user_input context) ∈ profile_keys.
Proof.
  unfold update_language.
  destruct (Qltb (6 # 10) _) eqn:E; [|by left].
  right. cbn [set_ctx_language ctx_language].
  apply detected_language_profile. apply Qltb_lt in E.
  intros Hz. rewrite Hz in E. discriminate E.
Qed.

Lemma generate_response_context_language (self : CloudWalkChatbot)
  (user_input : pystr) (context : ConversationContext) (now : datetime) :
  ctx_language (generate_response self user_input context now).1.2
  = ctx_language context
  \/ ctx_language (generate_response self user_input context now).1.2
     = ctx_language (update_language self user_input context).
Proof.
  destruct (llm self) as [invoke|] eqn:Hllm.
  - right.
    by destruct (generate_response_language self user_input context now
                   invoke Hllm).
  - left. by rewrite generate_response_unconfigured.
Qed.

(** X21: over a whole session the language of the context is either the
    one the session started with or a key of [LANGUAGE_PATTERNS]. *)
Theorem session_language (self : CloudWalkChatbot)
  (inputs : list (pystr * datetime)) (context : ConversationContext) :
  ctx_language (turns self inputs context) = ctx_language context
  \/ ctx_language (turns self inputs context) ∈ profile_keys.
Proof.
  unfold turns. revert context.
  induction inputs as [|input inputs IH]; intros context; simpl; [by left|].
  destruct (IH (generate_response self input.1 context input.2).1.2)
    as [Hsame|Hkey]; [|by right].
  rewrite Hsame.
  destruct (generate_response_context_language self input.1 context input.2)
    as [->| ->]; [by left|].
  apply update_language_range.
Qed.

(** X22: a turn of a configured chatbot sets the language of the context
    to the top-ranked profile exactly when that profile's normalized score
    exceeds 3/10, the score at which the confidence exceeds 0.6; otherwise
    the language stays. *)
Theorem language_switch_threshold (self : CloudWalkChatbot)
  (user_input : pystr) (context : ConversationContext) (now : datetime)
  (invoke : list Message -> Invocation) :
  llm self = Some invoke ->
  ctx_language (generate_response self user_input context now).1.2
  = match sorted_scores user_input with
    | (top_lang, top_score) :: _ =>
      if Qltb (3 # 10) top_score then top_lang else ctx_language context
    | [] => ctx_language context
    end.
Proof.
  intros Hllm.
  destruct (generate_response_language self user_input context now invoke
              Hllm) as [-> _].
  unfold update_language.
  pose proof (detect_language_ranked (language_manager self) user_input)
    as Hr. simpl in Hr.
  destruct (sorted_scores user_input) as [|[top_lang top_score] others].
  { by rewrite Hr. }
  destruct (Qeq_bool top_score 0) eqn:Ez.
  - rewrite Hr. cbn [confidence].
    apply Qeq_bool_iff in Ez.
    assert (Qltb (3 # 10) top_score = false) as ->; [|done].
    apply Qltb_ge. rewrite Ez. discriminate.
  - destruct Hr as (Hl & Hc & _).
    rewrite Hc, confidence_threshold.
    destruct (Qltb (3 # 10) top_score); [|done].
    cbn [set_ctx_language ctx_language]. exact Hl.
Qed.

End LanguageFacts.

Lemma language_switch_threshold_witness :
  ctx_language
    (generate_response (U := latin1) (C := idle) echo_bot
       (str "x x x x x x x a") fresh_context 1).1.2
  = str "en".
Proof.
  apply (language_switch_threshold (U := latin1) (C := idle) echo_bot
           (str "x x x x x x x a") fresh_context 1
           (fun _ => Returned (str " ok ")) eq_refl).
Defined.

(** ** Whitespace of responses, branding, configuration *)

Lemma last_rev {A} (l : list A) : last (rev l) = head l.
Proof. destruct l as [|x l]; [done|]. simpl. apply last_snoc. Qed.

Lemma head_rev {A} (l : list A) : head (rev l) = last l.
Proof. by rewrite <- (last_rev (rev l)), rev_involutive. Qed.

Lemma lstrip_head (s : pystr) (c : N) :
  head (lstrip s) = Some c -> isspace c = false.
Proof.
  induction s as [|x s IH]; simpl; [done|].
  destruct (isspace x) eqn:E; [done|]. intros [= <-]. exact E.
Qed.

Lemma lstrip_last (s : pystr) (c : N) :
  last (lstrip s) = Some c -> last s = Some c.
Proof.
  induction s as [|x s IH]; simpl; [done|].
  destruct (isspace x); [|done].
  intros H. specialize (IH H). rewrite last_cons. by rewrite IH.
Qed.

Lemma strip_ends (s : pystr) (c : N) :
  head (strip s) = Some c \/ last (strip s) = Some c -> isspace c = false.
Proof.
  unfold strip. rewrite head_rev, last_rev. intros [H|H].
  - apply lstrip_last in H. rewrite last_rev in H. by apply lstrip_head in H.
  - by apply lstrip_head in H.
Qed.

(** X23: whatever the chatbot, the input and the context, the response
    text of a turn neither begins nor ends with whitespace. *)
Theorem response_trimmed {U : Unicode} {C : Collaborators}
  (self : CloudWalkChatbot) (user_input : pystr)
  (context : ConversationContext) (now : datetime) (c : N) :
  let response := (generate_response self user_input context now).1.1 in
  head response = Some c \/ last response = Some c -> isspace c = false.
Proof.
  cbv zeta. destruct (llm self) as [invoke|] eqn:Hllm.
  - pose proof (generate_response_outcome self user_input context now invoke
                  Hllm) as Hout.
    cbv zeta in Hout. destruct (invoke _) as [content|e]; rewrite Hout.
    + apply strip_ends.
    + cbn [fst]. by intros [[= <-]|[= <-]].
  - rewrite generate_response_unconfigured by done. cbn [fst].
    by intros [[= <-]|[= <-]].
Qed.

Lemma response_trimmed_witness :
  isspace 111 = false.
Proof.
  apply (response_trimmed (U := latin1) (C := idle) echo_bot (str "hi")
           fresh_context 1 111).
  left. reflexivity.
Defined.

Lemma contains_app_r (needle s1 s2 : pystr) :
  contains needle s2 = true -> contains needle (s1 ++ s2) = true.
Proof.
  intros H. induction s1 as [|c s1 IH]; [done|].
  simpl. rewrite IH. apply orb_true_r.
Qed.

(** X24: [format_response_with_brand] leaves a response that already
    carries one of the two brand marks unchanged, its result always
    carries one, and applying it twice is the same as applying it once. *)
Theorem format_response_with_brand_once (response : pystr) :
  let marked (r : pystr) := contains (str "💜") r || contains (str "🚀") r in
  (marked response = true -> format_response_with_brand response = response)
  /\ marked (format_response_with_brand response) = true
  /\ format_response_with_brand (format_response_with_brand response)
     = format_response_with_brand response.
Proof.
  cbv zeta.
  assert (forall r, contains (str "💜") r || contains (str "🚀") r = true ->
                    format_response_with_brand r = r) as Hkeep.
  { intros r Hr. unfold format_response_with_brand.
    rewrite <- negb_orb, Hr. done. }
  assert (contains (str "💜") (format_response_with_brand response)
          || contains (str "🚀") (format_response_with_brand response) = true)
    as Hmarked.
  { unfold format_response_with_brand.
    destruct (negb (contains (str "💜") response)
              && negb (contains (str "🚀") response)) eqn:E.
    - apply orb_true_iff. left. apply contains_app_r.
      vm_compute. reflexivity.
    - rewrite <- negb_orb in E. by apply negb_false_iff in E. }
  split; [apply Hkeep|]. split; [exact Hmarked|]. by apply Hkeep.
Qed.

Lemma format_response_with_brand_once_witness :
  format_response_with_brand (str "Welcome 🚀") = str "Welcome 🚀".
Proof.
  apply (proj1 (format_response_with_brand_once (str "Welcome 🚀"))).
  vm_compute. reflexivity.
Defined.

Lemma split_on_aux_length (sep : N) (s : pystr) :
  forall cur : pystr,
    length (split_on_aux sep s cur)
    = S (length (List.filter (N.eqb sep) s)).
Proof.
  induction s as [|c s IH]; intros cur; simpl; [done|].
  rewrite (N.eqb_sym sep c).
  destruct (c =? sep); simpl; by rewrite IH.
Qed.

Lemma join_cons (sep x y : pystr) (l : list pystr) :
  join sep (x :: y :: l) = x ++ sep ++ join sep (y :: l).
Proof. reflexivity. Qed.

Lemma join_split_on_aux (sep : N) (s : pystr) :
  forall cur : pystr, join [sep] (split_on_aux sep s cur) = rev cur ++ s.
Proof.
  induction s as [|c s IH]; intros cur; simpl.
  - by rewrite app_nil_r.
  - destruct (N.eqb_spec c sep) as [->|Hne].
    + pose proof (IH []) as Hrest.
      destruct (split_on_aux sep s []) as [|y l] eqn:E;
        [by apply split_on_aux_nonempty in E|].
      rewrite join_cons, Hrest. reflexivity.
    + rewrite IH. simpl. by rewrite <- app_assoc.
Qed.

Lemma split_on_aux_free (sep : N) (s : pystr) :
  forall cur : pystr,
    sep ∉ cur ->
    Forall (fun field : pystr => sep ∉ field) (split_on_aux sep s cur).
Proof.
  induction s as [|c s IH]; intros cur Hcur; simpl.
  - constructor; [|constructor]. intros Hin. apply Hcur.
    by apply list_elem_of_In, in_rev, list_elem_of_In.
  - destruct (N.eqb_spec c sep) as [->|Hne].
    + constructor.
      * intros Hin. apply Hcur.
        by apply list_elem_of_In, in_rev, list_elem_of_In.
      * apply IH. apply not_elem_of_nil.
    + apply IH. intros Hin. apply elem_of_cons in Hin as [->|Hin]; done.
Qed.

Lemma lstrip_decompose (s : pystr) :
  exists lead,
    s = lead ++ lstrip s /\ Forall (fun c => isspace c = true) lead.
Proof.
  induction s as [|c s (lead & Hs & Hlead)]; simpl.
  - by exists [].
  - destruct (isspace c) eqn:E.
    + exists (c :: lead). split; [by rewrite Hs at 1|]. by constructor.
    + by exists [].
Qed.

Lemma strip_decompose (s : pystr) :
  exists lead trail,
    s = lead ++ strip s ++ trail
    /\ Forall (fun c => isspace c = true) lead
    /\ Forall (fun c => isspace c = true) trail.
Proof.
  destruct (lstrip_decompose s) as (lead & Hs & Hlead).
  destruct (lstrip_decompose (rev (lstrip s))) as (back & Hr & Hback).
  exists lead, (rev back). split; [|split; [done|]].
  - unfold strip. rewrite Hs at 1. f_equal.
    rewrite <- rev_app_distr, <- Hr. by rewrite rev_involutive.
  - apply Forall_forall. intros c Hc. rewrite Forall_forall in Hback.
    apply Hback. by apply list_elem_of_In, in_rev, list_elem_of_In.
Qed.

(** X25: the supported languages read from the configuration are the
    comma-separated fields of the setting, each with its leading and
    trailing whitespace removed: the fields are free of commas, joined by
    commas they give the setting back, there is one more of them than the
    setting has commas, and each language is its field less a whitespace
    prefix and a whitespace suffix, without whitespace at either end. *)
Theorem parse_languages_fields (languages : pystr) :
  exists fields : list pystr,
    join (str ",") fields = languages
    /\ length fields = S (length (List.filter (N.eqb 44) languages))
    /\ Forall (fun field : pystr => 44 ∉ field) fields
    /\ Forall2
         (fun field language : pystr =>
            (exists lead trail,
                field = lead ++ language ++ trail
                /\ Forall (fun c => isspace c = true) lead
                /\ Forall (fun c => isspace c = true) trail)
            /\ forall c,
                 head language = Some c \/ last language = Some c ->
                 isspace c = false)
         fields (Config.parse_languages languages).
Proof.
  exists (split_on 44 languages). unfold Config.parse_languages, split_on.
  split; [apply (join_split_on_aux 44 languages [])|].
  split; [apply split_on_aux_length|].
  split; [apply split_on_aux_free, not_elem_of_nil|].
  induction (split_on_aux 44 languages []) as [|field fields IH]; simpl;
    constructor; [|exact IH].
  split; [apply strip_decompose | apply strip_ends].
Qed.

Example parse_languages_default :
  Config.parse_languages (str "en, pt-BR ,,es")
  = [str "en"; str "pt-BR"; []; str "es"].
Proof. vm_compute. reflexivity. Qed.

(** ** LanguageManager.get_greeting *)

Lemma greeting_profile (language : pystr) :
  default en (dict_get language LANGUAGE_PATTERNS)
  = if decide (language = str "pt-BR") then pt_BR else en.
Proof.
  unfold LANGUAGE_PATTERNS. cbn [dict_get].
  destruct (str_eqb language (str "pt-BR")) eqn:E.
  - apply str_eqb_eq in E. by rewrite decide_True.
  - apply str_eqb_neq in E. rewrite decide_False by done.
    by destruct (str_eqb language (str "en")).
Qed.

(** X26: for every language code and every draw below 3, [get_greeting]
    returns one of the three greetings of the Portuguese profile when the
    code is ['pt-BR'] and one of the three English greetings for any other
    code, configured or not. *)
Theorem get_greeting_profile (language : pystr) (draw : nat) :
  (draw < 3)%nat ->
  exists greeting,
    get_greeting language draw = Some greeting
    /\ greeting
       ∈ greeting_responses
           (if decide (language = str "pt-BR") then pt_BR else en).
Proof.
  intros Hdraw. unfold get_greeting. cbv zeta. rewrite greeting_profile.
  set (profile := if decide (language = str "pt-BR") then pt_BR else en).
  assert (length (greeting_responses profile) = 3%nat) as Hlen
    by (unfold profile; by destruct (decide _)).
  destruct (lookup_lt_is_Some_2 (greeting_responses profile) draw)
    as [greeting Hg]; [lia|].
  exists greeting. split; [done|]. by eapply list_elem_of_lookup_2.
Qed.

Lemma get_greeting_profile_witness :
  exists greeting,
    get_greeting (str "fr") 1 = Some greeting
    /\ greeting
       ∈ greeting_responses
           (if decide (str "fr" = str "pt-BR") then pt_BR else en).
Proof. apply (get_greeting_profile (str "fr") 1). lia. Defined.
